(** * Vidiyome: request handling, storage and social-media publishing

    A shallow embedding of the server side of the repository:
    - [src/routes.ts]: [sanitizeInput], [validateRequest] and the handlers
      for publishing, the OAuth callback, the authorization URL and the
      secrets check;
    - [src/storage.ts]: the in-memory store ([MemStorage]);
    - the social-media service ([SocialMediaService], the last document
      of [src/platform-connect.tsx]).

    JavaScript strings are modelled by [string] (the UTF-8 bytes of the
    text: every character the code inspects is ASCII, and no byte of a
    multi-byte UTF-8 sequence is ASCII), numbers that are identifiers,
    counters or millisecond timestamps by [Z], [process.env] and records
    used as dictionaries by [gmap], and the [Map] whose iteration order the
    code observes by a list in insertion order.

    A handler is a computation over the state of the process that also
    records the calls it makes on the store and on the service.  One
    request runs from start to end: the middleware in front of the routes
    and the interleaving of requests at an [await] are outside the model. *)

From Stdlib Require Import ZArith String Ascii List Lia Bool Permutation Sorted.
From stdpp Require Import base option list gmap strings pretty.

Set Warnings "-register-all".
Local Open Scope string_scope.
Local Open Scope Z_scope.

(** ** JavaScript values *)

Module JS.

(** The values that reach the server as JSON bodies, route parameters and
    query strings.  An object is the list of its own enumerable properties
    in enumeration order; its prototype link is not part of the value. *)
Inductive value : Type :=
| VUndefined
| VNull
| VBool (b : bool)
| VNum (n : Z)
| VStr (s : string)
| VArr (items : list value)
| VObj (props : list (string * value)).

(** [if (x)], [!x], [x || d]: the truthiness of a value. *)
Definition truthy (v : value) : bool :=
  match v with
  | VUndefined | VNull => false
  | VBool b => b
  | VNum n => negb (n =? 0)%Z
  | VStr s => negb (String.eqb s "")
  | VArr _ | VObj _ => true
  end.

(** A property that may be missing reads as [undefined]. *)
Definition of_option (o : option value) : value :=
  match o with Some v => v | None => VUndefined end.

(** A string-valued variable that may be [undefined] or [null]
    ([process.env.X], [video.videoUrl], a request header). *)
Definition truthy_str (o : option string) : bool :=
  match o with Some s => negb (String.eqb s "") | None => false end.

(** [obj[key]] on own properties. *)
Fixpoint get (key : string) (props : list (string * value)) : option value :=
  match props with
  | [] => None
  | (k, v) :: rest => if String.eqb k key then Some v else get key rest
  end.

Definition prop (key : string) (v : value) : value :=
  match v with
  | VObj props => of_option (get key props)
  | _ => VUndefined
  end.

(** The double quote, written by its code so that no literal has to
    escape it. *)
Definition dquote : ascii := "034"%char.

(** [s.replace(/c/g, r)] for a one-character pattern [c]. *)
Fixpoint replaceAll (c : ascii) (r : string) (s : string) : string :=
  match s with
  | EmptyString => EmptyString
  | String a rest =>
      if Ascii.eqb a c then r +:+ replaceAll c r rest
      else String a (replaceAll c r rest)
  end.

(** [s.includes(c)] for a one-character [c]. *)
Fixpoint occurs (c : ascii) (s : string) : bool :=
  match s with
  | EmptyString => false
  | String a rest => Ascii.eqb a c || occurs c rest
  end.

(** [s1.includes(s2)]. *)
Fixpoint includes (s sub : string) : bool :=
  String.prefix sub s
  || match s with
     | EmptyString => false
     | String _ rest => includes rest sub
     end.

(** [s.toLowerCase()] on the ASCII letters; the other bytes are kept. *)
Definition lower_ascii (a : ascii) : ascii :=
  let n := nat_of_ascii a in
  if (Nat.leb 65 n && Nat.leb n 90)%nat then ascii_of_nat (n + 32)%nat else a.

Fixpoint toLowerCase (s : string) : string :=
  match s with
  | EmptyString => EmptyString
  | String a rest => String (lower_ascii a) (toLowerCase rest)
  end.

(** [arr.join(sep)] on an array of strings. *)
Fixpoint join (sep : string) (l : list string) : string :=
  match l with
  | [] => ""
  | [x] => x
  | x :: rest => x +:+ sep +:+ join sep rest
  end.

(** [encodeURIComponent(s)]: every byte outside the unreserved set
    [A-Z a-z 0-9 - _ . ! ~ * ' ( )] becomes [%XX]. *)
Definition unreserved (a : ascii) : bool :=
  let n := nat_of_ascii a in
  ((Nat.leb 65 n && Nat.leb n 90) || (Nat.leb 97 n && Nat.leb n 122)
   || (Nat.leb 48 n && Nat.leb n 57)
   || existsb (Ascii.eqb a) ["-"; "_"; "."; "!"; "~"; "*"; "'"; "("; ")"]%char)%nat.

Definition hexDigit (n : nat) : ascii :=
  if Nat.ltb n 10%nat then ascii_of_nat (48 + n)%nat else ascii_of_nat (55 + n)%nat.

Fixpoint encodeURIComponent (s : string) : string :=
  match s with
  | EmptyString => EmptyString
  | String a rest =>
      if unreserved a then String a (encodeURIComponent rest)
      else
        let n := nat_of_ascii a in
        String "%" (String (hexDigit (Nat.div n 16%nat))
                      (String (hexDigit (Nat.modulo n 16%nat)) (encodeURIComponent rest)))
  end.

(** [parseInt(s)]: leading white space, an optional sign, an optional
    [0x] prefix, then the longest run of digits; [None] is [NaN].  The
    white space recognised is the ASCII one, and the result is the exact
    integer (a double is exact up to [2^53]). *)
Definition isSpace (a : ascii) : bool :=
  existsb (Ascii.eqb a) [" "; "009"; "010"; "011"; "012"; "013"]%char.

Fixpoint skipSpace (s : string) : string :=
  match s with
  | String a rest => if isSpace a then skipSpace rest else s
  | EmptyString => s
  end.

Definition digitValue (radix : Z) (a : ascii) : option Z :=
  let n := Z.of_nat (nat_of_ascii a) in
  let d := if (48 <=? n) && (n <=? 57) then Some (n - 48)
           else if (97 <=? n) && (n <=? 122) then Some (n - 87)
           else if (65 <=? n) && (n <=? 90) then Some (n - 55)
           else None in
  match d with
  | Some k => if k <? radix then Some k else None
  | None => None
  end.

Fixpoint digits (radix : Z) (s : string) (acc : Z) (seen : bool) : option Z :=
  match s with
  | EmptyString => if seen then Some acc else None
  | String a rest =>
      match digitValue radix a with
      | Some d => digits radix rest (acc * radix + d) true
      | None => if seen then Some acc else None
      end
  end.

Definition parseInt (s : string) : option Z :=
  let s1 := skipSpace s in
  let '(negative, s2) :=
    match s1 with
    | String "-" rest => (true, rest)
    | String "+" rest => (false, rest)
    | _ => (false, s1)
    end in
  let '(radix, s3) :=
    match s2 with
    | String "0" (String "x" rest) => (16, rest)
    | String "0" (String "X" rest) => (16, rest)
    | _ => (10, s2)
    end in
  match digits radix s3 0 false with
  | Some n => Some (if negative then - n else n)
  | None => None
  end.

(** [arr.slice(0, end)]: a negative [end] counts from the end of the
    array. *)
Definition slice0 {A} (l : list A) (end_ : Z) : list A :=
  let len := Z.of_nat (length l) in
  let k := if end_ <? 0 then Z.max (len + end_) 0 else Z.min end_ len in
  take (Z.to_nat k) l.

(** [arr.sort(cmp)]: the stable sort of ECMAScript 2019.  [cmp a b > 0]
    asks for [a] after [b]; an element is placed before the first later
    element it need not follow. *)
Fixpoint sortInsert {A} (cmp : A -> A -> Z) (x : A) (l : list A) : list A :=
  match l with
  | [] => [x]
  | y :: rest => if 0 <? cmp x y then y :: sortInsert cmp x rest else x :: l
  end.

Fixpoint sort {A} (cmp : A -> A -> Z) (l : list A) : list A :=
  match l with
  | [] => []
  | x :: rest => sortInsert cmp x (sort cmp rest)
  end.

(** [result[key] = v] on a record used as a dictionary of flags.  For
    the key [__proto__] the assignment of a boolean runs the inherited
    accessor, which ignores it: no own property appears. *)
Definition assignFlag (key : string) (v : bool) (r : gmap string bool) : gmap string bool :=
  if String.eqb key "__proto__" then r else <[key := v]> r.

End JS.

Import JS.

(** ** [sanitizeInput] (src/routes.ts) *)

(** The five replacements of the string case, in the order of the source. *)
Definition escapeString (s : string) : string :=
  replaceAll "/" "&#x2F;"
    (replaceAll "'" "&#x27;"
       (replaceAll dquote "&quot;"
          (replaceAll ">" "&gt;"
             (replaceAll "<" "&lt;" s)))).

(** [const sanitizeInput = (obj: any): any => ...].

    The object case copies the own enumerable properties with
    [result[key] = sanitizeInput(obj[key])] onto a fresh [{}].  For the
    key [__proto__] that assignment runs the accessor inherited from
    [Object.prototype] and creates no own property, so the key is absent
    from the copy.  Property names are copied as they are. *)
Fixpoint sanitizeInput (obj : value) : value :=
  match obj with
  | VUndefined => VUndefined
  | VNull => VNull
  | VBool b => VBool b
  | VNum n => VNum n
  | VStr s => VStr (escapeString s)
  | VArr items => VArr (map sanitizeInput items)
  | VObj props =>
      VObj ((fix copy (ps : list (string * value)) : list (string * value) :=
               match ps with
               | [] => []
               | (key, v) :: rest =>
                   if String.eqb key "__proto__" then copy rest
                   else (key, sanitizeInput v) :: copy rest
               end) props)
  end.

(** The object case of [sanitizeInput], named. *)
Fixpoint copyProps (ps : list (string * value)) : list (string * value) :=
  match ps with
  | [] => []
  | (key, v) :: rest =>
      if String.eqb key "__proto__" then copyProps rest
      else (key, sanitizeInput v) :: copyProps rest
  end.

(** The characters the sanitizer rewrites. *)
Definition rawChars : list ascii := ["<"; ">"; dquote; "'"; "/"]%char.

Definition cleanString (s : string) : bool :=
  forallb (fun c => negb (occurs c s)) rawChars.

(** Every string value inside [v] (at any depth) satisfies [P]. *)
Fixpoint allStrings (P : string -> bool) (v : value) : bool :=
  match v with
  | VStr s => P s
  | VArr items => forallb (allStrings P) items
  | VObj props => forallb (fun kv => allStrings P (snd kv)) props
  | _ => true
  end.

(** ** Records of the schema (src/schema.ts) and of the service *)

(** [Video]: a row of the [videos] table. *)
Module Video.
Record t : Type := mk {
  id : Z;
  title : string;
  prompt : string;
  style : string;
  duration : string;
  aspectRatio : string;
  platforms : option (list string);
  status : string;
  thumbnailUrl : option string;
  videoUrl : option string;
  createdAt : Z;
  userId : Z
}.
End Video.

(** [Partial<InsertVideo>]: the properties an update carries. *)
Module VideoPatch.
Record t : Type := mk {
  title : option string;
  prompt : option string;
  style : option string;
  duration : option string;
  aspectRatio : option string;
  platforms : option (list string);
  status : option string;
  thumbnailUrl : option (option string);
  videoUrl : option (option string);
  userId : option Z
}.

Definition empty : t := mk None None None None None None None None None None.

(** [{ status: s }]. *)
Definition ofStatus (s : string) : t :=
  mk None None None None None None (Some s) None None None.

(** [{ ...video, ...updateData }]. *)
Definition apply (updateData : t) (video : Video.t) : Video.t :=
  Video.mk (Video.id video)
    (default (Video.title video) (title updateData))
    (default (Video.prompt video) (prompt updateData))
    (default (Video.style video) (style updateData))
    (default (Video.duration video) (duration updateData))
    (default (Video.aspectRatio video) (aspectRatio updateData))
    (match platforms updateData with Some p => Some p | None => Video.platforms video end)
    (default (Video.status video) (status updateData))
    (default (Video.thumbnailUrl video) (thumbnailUrl updateData))
    (default (Video.videoUrl video) (videoUrl updateData))
    (Video.createdAt video)
    (default (Video.userId video) (userId updateData)).
End VideoPatch.

(** [InsertActivity] and [Activity]. *)
Module InsertActivity.
Record t : Type := mk {
  videoId : option Z;
  userId : Z;
  action : string;
  details : option value
}.
End InsertActivity.

Module Activity.
Record t : Type := mk {
  id : Z;
  videoId : option Z;
  userId : Z;
  action : string;
  details : option value;
  createdAt : Z
}.
End Activity.

(** [PublishResult] of the social-media service. *)
Module PublishResult.
Record t : Type := mk {
  success : bool;
  platform : string;
  url : option string;
  message : option string;
  error : option string
}.

(** The JSON sent by [res.json]: absent properties are left out. *)
Definition optionalProp (key : string) (o : option string) : list (string * value) :=
  match o with Some s => [(key, VStr s)] | None => [] end.

Definition toJSON (r : t) : value :=
  VObj ([("success", VBool (success r)); ("platform", VStr (platform r))]
        ++ optionalProp "url" (url r)
        ++ optionalProp "message" (message r)
        ++ optionalProp "error" (error r)).
End PublishResult.

(** [SocialMediaAuthConfig]. *)
Module YoutubeConfig.
Record t : Type := mk {
  clientId : string;
  clientSecret : string;
  refreshToken : option string;
  accessToken : option string
}.
End YoutubeConfig.

Module TiktokConfig.
Record t : Type := mk {
  clientKey : string;
  clientSecret : string;
  accessToken : option string
}.
End TiktokConfig.

Module InstagramConfig.
Record t : Type := mk {
  accessToken : option string
}.
End InstagramConfig.

Module SocialMediaAuthConfig.
Record t : Type := mk {
  youtube : option YoutubeConfig.t;
  tiktok : option TiktokConfig.t;
  instagram : option InstagramConfig.t
}.

Definition empty : t := mk None None None.
End SocialMediaAuthConfig.

(** ** The process: environment, clock, file system, store, service *)

(** The state of [MemStorage] read or written by the modelled methods:
    the [videos] and [activities] maps and the activity counter.  The
    [activities] map is kept in insertion order, the order in which
    [values()] yields it. *)
Module MemStorageState.
Record t : Type := mk {
  videos : gmap Z Video.t;
  activities : list Activity.t;
  activityIdCounter : Z
}.
End MemStorageState.

(** The Node library functions and the file system the service consults.
    [urlPathname u] is [new URL(u, 'http://localhost').pathname], [None]
    when the constructor throws. *)
Module Host.
Record t : Type := mk {
  urlPathname : string -> option string;
  pathBasename : string -> string;
  pathJoin : list string -> string;
  cwd : string;
  fsAccess : string -> bool
}.
End Host.

Module World.
Record t : Type := mk {
  env : gmap string string;
  host : Host.t;
  clock : nat -> Z;
  ticks : nat;
  storage : MemStorageState.t;
  config : SocialMediaAuthConfig.t
}.

Definition withStorage (s : MemStorageState.t) (w : t) : t :=
  mk (env w) (host w) (clock w) (ticks w) s (config w).

Definition withConfig (c : SocialMediaAuthConfig.t) (w : t) : t :=
  mk (env w) (host w) (clock w) (ticks w) (storage w) c.

Definition withTicks (n : nat) (w : t) : t :=
  mk (env w) (host w) (clock w) n (storage w) (config w).
End World.

(** A call a route handler makes on the store or on the service, with
    what [publishVideo] gave back ([None]: it threw). *)
Inductive Call : Type :=
| CallGetVideo (id : Z)
| CallUpdateVideo (id : Z) (updateData : VideoPatch.t)
| CallCreateActivity (a : InsertActivity.t)
| CallGetActivitiesByUserId (userId : Z) (limit : option Z)
| CallReloadConfig
| CallGetAuthorizationUrl (platform : string) (baseUrl : string)
| CallSetAccessToken (platform token : string)
| CallPublishVideo (video : Video.t) (platforms : list string)
    (outcome : option (list PublishResult.t)).

(** Computations over the process state that record the calls made. *)
Module M.
Record Run (A : Type) : Type := mkRun {
  result : A;
  final : World.t;
  calls : list Call
}.
Arguments mkRun {A} _ _ _.
Arguments result {A} _.
Arguments final {A} _.
Arguments calls {A} _.

Definition t (A : Type) : Type := World.t -> Run A.

Definition ret {A} (a : A) : t A := fun w => mkRun a w [].

Definition bind {A B} (m : t A) (k : A -> t B) : t B :=
  fun w =>
    let r1 := m w in
    let r2 := k (result r1) (final r1) in
    mkRun (result r2) (final r2) (calls r1 ++ calls r2).

Definition get : t World.t := fun w => mkRun w w [].
Definition put (w : World.t) : t unit := fun _ => mkRun tt w [].
Definition record (c : Call) : t unit := fun w => mkRun tt w [c].

(** [new Date()]: the next reading of the clock. *)
Definition newDate : t Z :=
  fun w => mkRun (World.clock w (World.ticks w)) (World.withTicks (S (World.ticks w)) w) [].
End M.

#[global] Instance M_ret : MRet M.t := @M.ret.
#[global] Instance M_bind : MBind M.t := fun A B k m => M.bind m k.

Module MOps.
(** Access to the components of the process state. *)
Definition storage : M.t MemStorageState.t :=
  w ← M.get; mret (World.storage w).

Definition modifyStorage (f : MemStorageState.t -> MemStorageState.t) : M.t unit :=
  w ← M.get; M.put (World.withStorage (f (World.storage w)) w).

Definition config : M.t SocialMediaAuthConfig.t :=
  w ← M.get; mret (World.config w).

Definition setConfig (c : SocialMediaAuthConfig.t) : M.t unit :=
  w ← M.get; M.put (World.withConfig c w).

Definition env : M.t (gmap string string) :=
  w ← M.get; mret (World.env w).

Definition host : M.t Host.t :=
  w ← M.get; mret (World.host w).
End MOps.

(** ** [MemStorage] (src/storage.ts) *)

Module MemStorage.
Import MemStorageState.

(** [this.activities.set(id, activity)]: a key already present keeps its
    place in the iteration order, a new key goes last. *)
Fixpoint mapSet (a : Activity.t) (m : list Activity.t) : list Activity.t :=
  match m with
  | [] => [a]
  | b :: rest =>
      if Activity.id b =? Activity.id a then a :: rest else b :: mapSet a rest
  end.

(** [x || null] on a number and on a JSON value. *)
Definition numberOrNull (o : option Z) : option Z :=
  match o with
  | Some n => if n =? 0 then None else Some n
  | None => None
  end.

Definition valueOrNull (o : option value) : option value :=
  match o with
  | Some v => if truthy v then Some v else None
  | None => None
  end.

Definition createActivity (insertActivity : InsertActivity.t) : M.t Activity.t :=
  st ← MOps.storage;
  let id := activityIdCounter st in
  MOps.modifyStorage (fun s => mk (videos s) (activities s) (id + 1));;
  now ← M.newDate;
  let activity :=
    Activity.mk id
      (numberOrNull (InsertActivity.videoId insertActivity))
      (InsertActivity.userId insertActivity)
      (InsertActivity.action insertActivity)
      (valueOrNull (InsertActivity.details insertActivity))
      now in
  MOps.modifyStorage
    (fun s => mk (videos s) (mapSet activity (activities s)) (activityIdCounter s));;
  mret activity.

Definition getVideo (id : Z) : M.t (option Video.t) :=
  st ← MOps.storage; mret (videos st !! id).

Definition updateVideo (id : Z) (updateData : VideoPatch.t) : M.t (option Video.t) :=
  st ← MOps.storage;
  match videos st !! id with
  | None => mret None
  | Some video =>
      let updatedVideo := VideoPatch.apply updateData video in
      MOps.modifyStorage
        (fun s => mk (<[id := updatedVideo]> (videos s)) (activities s) (activityIdCounter s));;
      createActivity
        (InsertActivity.mk (Some id) (Video.userId video) "update_video"
           (Some (VObj [("title", VStr (Video.title video))])));;
      mret (Some updatedVideo)
  end.

(** The comparator [(a, b) => b.createdAt.getTime() - a.createdAt.getTime()]. *)
Definition newestFirst (a b : Activity.t) : Z :=
  Activity.createdAt b - Activity.createdAt a.

Definition getActivitiesByUserId (userId : Z) (limit : option Z) : M.t (list Activity.t) :=
  st ← MOps.storage;
  let activities :=
    JS.sort newestFirst
      (List.filter (fun activity => Activity.userId activity =? userId) (activities st)) in
  mret (match limit with
        | Some n => if n =? 0 then activities else slice0 activities n
        | None => activities
        end).
End MemStorage.

(** ** [SocialMediaService] (src/platform-connect.tsx, last document) *)

Module SocialMediaService.
Import SocialMediaAuthConfig.

Definition nonEmpty (s : string) : bool := negb (String.eqb s "").

(** [loadConfig()]: a platform whose variables are set gets a fresh
    entry; the other entries are left as they are. *)
Definition loadYoutube (env : gmap string string) (c : t) : t :=
  match env !! "YOUTUBE_CLIENT_ID", env !! "YOUTUBE_CLIENT_SECRET" with
  | Some clientId, Some clientSecret =>
      if nonEmpty clientId && nonEmpty clientSecret then
        mk (Some (YoutubeConfig.mk clientId clientSecret
                    (env !! "YOUTUBE_REFRESH_TOKEN") (env !! "YOUTUBE_ACCESS_TOKEN")))
           (tiktok c) (instagram c)
      else c
  | _, _ => c
  end.

Definition loadTiktok (env : gmap string string) (c : t) : t :=
  match env !! "TIKTOK_CLIENT_KEY", env !! "TIKTOK_CLIENT_SECRET" with
  | Some clientKey, Some clientSecret =>
      if nonEmpty clientKey && nonEmpty clientSecret then
        mk (youtube c)
           (Some (TiktokConfig.mk clientKey clientSecret (env !! "TIKTOK_ACCESS_TOKEN")))
           (instagram c)
      else c
  | _, _ => c
  end.

Definition loadInstagram (env : gmap string string) (c : t) : t :=
  match env !! "INSTAGRAM_ACCESS_TOKEN" with
  | Some accessToken =>
      if nonEmpty accessToken then
        mk (youtube c) (tiktok c) (Some (InstagramConfig.mk (Some accessToken)))
      else c
  | None => c
  end.

Definition loadConfig (env : gmap string string) (c : t) : t :=
  loadInstagram env (loadTiktok env (loadYoutube env c)).

(** [new SocialMediaService()]. *)
Definition construct (env : gmap string string) : t := loadConfig env empty.

Definition isPlatformConfigured (c : t) (platform : string) : bool :=
  let p := toLowerCase platform in
  if String.eqb p "youtube" then
    match youtube c with
    | Some y => nonEmpty (YoutubeConfig.clientId y) && nonEmpty (YoutubeConfig.clientSecret y)
    | None => false
    end
  else if String.eqb p "tiktok" then
    match tiktok c with
    | Some k => nonEmpty (TiktokConfig.clientKey k) && nonEmpty (TiktokConfig.clientSecret k)
    | None => false
    end
  else if String.eqb p "instagram" then
    match instagram c with
    | Some i => truthy_str (InstagramConfig.accessToken i)
    | None => false
    end
  else false.

Definition getConfiguredPlatforms (c : t) : list string :=
  (if isPlatformConfigured c "youtube" then ["youtube"] else [])
  ++ (if isPlatformConfigured c "tiktok" then ["tiktok"] else [])
  ++ (if isPlatformConfigured c "instagram" then ["instagram"] else []).

(** [setAccessToken(platform, token)]: the value returned and the
    configuration afterwards. *)
Definition setAccessToken (c : t) (platform token : string) : bool * t :=
  let p := toLowerCase platform in
  if String.eqb p "youtube" then
    match youtube c with
    | Some y =>
        (true,
         mk (Some (YoutubeConfig.mk (YoutubeConfig.clientId y) (YoutubeConfig.clientSecret y)
                     (YoutubeConfig.refreshToken y) (Some token)))
            (tiktok c) (instagram c))
    | None => (false, c)
    end
  else if String.eqb p "tiktok" then
    match tiktok c with
    | Some k =>
        (true,
         mk (youtube c)
            (Some (TiktokConfig.mk (TiktokConfig.clientKey k) (TiktokConfig.clientSecret k)
                     (Some token)))
            (instagram c))
    | None => (false, c)
    end
  else if String.eqb p "instagram" then
    (true, mk (youtube c) (tiktok c) (Some (InstagramConfig.mk (Some token))))
  else (false, c).

(** The redirect URI [`${protocol}://${thisHost}/api/auth/<platform>/callback`]. *)
Definition redirectUri (baseUrl : option string) (platform : string) : string :=
  let thisHost := if truthy_str baseUrl then default "" baseUrl else "localhost:5000" in
  let protocol := if includes thisHost "localhost" then "http" else "https" in
  protocol +:+ "://" +:+ thisHost +:+ "/api/auth/" +:+ platform +:+ "/callback".

Definition youtubeScopes : string :=
  encodeURIComponent
    ("https://www.googleapis.com/auth/youtube " +:+
     "https://www.googleapis.com/auth/youtube.upload " +:+
     "https://www.googleapis.com/auth/youtube.readonly").

Definition getAuthorizationUrl (env : gmap string string) (c : t)
    (platform : string) (baseUrl : option string) : option string :=
  let p := toLowerCase platform in
  if String.eqb p "youtube" then
    match youtube c with
    | Some y =>
        if nonEmpty (YoutubeConfig.clientId y) then
          Some ("https://accounts.google.com/o/oauth2/auth?client_id=" +:+ YoutubeConfig.clientId y
                +:+ "&redirect_uri=" +:+ encodeURIComponent (redirectUri baseUrl "youtube")
                +:+ "&scope=" +:+ youtubeScopes
                +:+ "&response_type=code&access_type=offline&prompt=consent&include_granted_scopes=true")
        else None
    | None => None
    end
  else if String.eqb p "tiktok" then
    match tiktok c with
    | Some k =>
        if nonEmpty (TiktokConfig.clientKey k) then
          Some ("https://www.tiktok.com/auth/authorize/?client_key=" +:+ TiktokConfig.clientKey k
                +:+ "&scope=user.info.basic,video.upload&response_type=code&redirect_uri="
                +:+ encodeURIComponent (redirectUri baseUrl "tiktok"))
        else None
    | None => None
    end
  else if String.eqb p "instagram" then
    match env !! "FACEBOOK_APP_ID" with
    | Some appId =>
        if nonEmpty appId then
          Some ("https://www.facebook.com/v16.0/dialog/oauth?client_id=" +:+ appId
                +:+ "&redirect_uri=" +:+ encodeURIComponent (redirectUri baseUrl "instagram")
                +:+ "&scope=" +:+ encodeURIComponent "instagram_content_publish,pages_read_engagement")
        else None
    | None => None
    end
  else None.

(** The three adapters.  Nothing inside their [try] blocks can throw. *)
Definition publishToYoutube (c : t) (video : Video.t) (videoFilePath : string) : PublishResult.t :=
  if negb (match youtube c with
           | Some y => truthy_str (YoutubeConfig.accessToken y)
           | None => false
           end)
  then PublishResult.mk false "youtube" None None
         (Some "YouTube not authorized. Please connect your YouTube account.")
  else PublishResult.mk true "youtube" (Some "https://youtube.com/watch?v=dQw4w9WgXcQ")
         (Some "Video successfully published to YouTube") None.

Definition publishToTikTok (c : t) (video : Video.t) (videoFilePath : string) : PublishResult.t :=
  if negb (match tiktok c with
           | Some k => truthy_str (TiktokConfig.accessToken k)
           | None => false
           end)
  then PublishResult.mk false "tiktok" None None
         (Some "TikTok not authorized. Please connect your TikTok account.")
  else PublishResult.mk true "tiktok" (Some "https://tiktok.com/@username/video/1234567890")
         (Some "Video successfully published to TikTok") None.

Definition publishToInstagram (c : t) (video : Video.t) (videoFilePath : string) : PublishResult.t :=
  if negb (match instagram c with
           | Some i => truthy_str (InstagramConfig.accessToken i)
           | None => false
           end)
  then PublishResult.mk false "instagram" None None
         (Some "Instagram not authorized. Please connect your Instagram account.")
  else PublishResult.mk true "instagram" (Some "https://instagram.com/p/AbCdEfGh123")
         (Some "Video successfully published to Instagram") None.

(** One turn of the loop [for (const platform of platforms)]. *)
Definition publishOne (c : t) (video : Video.t) (videoFilePath : string)
    (platform : string) : PublishResult.t :=
  let p := toLowerCase platform in
  if String.eqb p "youtube" then publishToYoutube c video videoFilePath
  else if String.eqb p "tiktok" then publishToTikTok c video videoFilePath
  else if String.eqb p "instagram" then publishToInstagram c video videoFilePath
  else PublishResult.mk false platform None None
         (Some ("Unsupported platform: " +:+ platform)).

(** [publishVideo(video, platforms)]; [None] when [new URL] throws. *)
Definition publishVideo (h : Host.t) (c : t) (video : Video.t)
    (platforms : list string) : option (list PublishResult.t) :=
  match Video.videoUrl video with
  | Some videoUrl =>
      if nonEmpty videoUrl then
        match Host.urlPathname h videoUrl with
        | None => None
        | Some urlPath =>
            let videoFileName := Host.pathBasename h urlPath in
            let videoFilePath :=
              Host.pathJoin h [Host.cwd h; "public"; "generated"; videoFileName] in
            if Host.fsAccess h videoFilePath then
              Some (map (publishOne c video videoFilePath) platforms)
            else
              Some [PublishResult.mk false "all" None None (Some "Video file not found")]
        end
      else Some [PublishResult.mk false "all" None None (Some "No video URL available")]
  | None => Some [PublishResult.mk false "all" None None (Some "No video URL available")]
  end.
End SocialMediaService.

(** ** Validation with zod and zod-validation-error *)

Module Zod.
Inductive PathItem : Type :=
| Key (k : string)
| Index (i : nat).

(** The two kinds of issue the publish schema can raise. *)
Inductive Issue : Type :=
| InvalidType (expected received : string) (path : list PathItem)
| TooSmall (message : string) (path : list PathItem).

(** The parsed type zod reports for a value. *)
Definition typeName (v : value) : string :=
  match v with
  | VUndefined => "undefined"
  | VNull => "null"
  | VBool _ => "boolean"
  | VNum _ => "number"
  | VStr _ => "string"
  | VArr _ => "array"
  | VObj _ => "object"
  end.

Definition issuePath (i : Issue) : list PathItem :=
  match i with
  | InvalidType _ _ p => p
  | TooSmall _ p => p
  end.

Definition issueMessage (i : Issue) : string :=
  match i with
  | InvalidType expected received _ =>
      if String.eqb received "undefined" then "Required"
      else "Expected " +:+ expected +:+ ", received " +:+ received
  | TooSmall message _ => message
  end.

Fixpoint joinPath (first : bool) (p : list PathItem) : string :=
  match p with
  | [] => ""
  | Key k :: rest => (if first then k else "." +:+ k) +:+ joinPath false rest
  | Index i :: rest => "[" +:+ pretty i +:+ "]" +:+ joinPath false rest
  end.

Definition renderIssue (i : Issue) : string :=
  match issuePath i with
  | [] => issueMessage i
  | p => issueMessage i +:+ " at " +:+ String dquote (joinPath true p +:+ String dquote "")
  end.

(** [fromZodError(error).message]. *)
Definition fromZodError (issues : list Issue) : string :=
  "Validation error: " +:+ join "; " (map renderIssue issues).

(** [z.array(z.string())] on the items of an array, from index [i]. *)
Fixpoint parseStrings (path : list PathItem) (i : nat) (items : list value)
  : list Issue * list string :=
  match items with
  | [] => ([], [])
  | item :: rest =>
      let '(issues, strings) := parseStrings path (S i) rest in
      match item with
      | VStr s => (issues, s :: strings)
      | other => (InvalidType "string" (typeName other) (path ++ [Index i])%list :: issues, strings)
      end
  end.
End Zod.

(** ** The routes (src/routes.ts) *)

Module Routes.

(** [sanitizeInput] on a route parameter, which is a string. *)
Definition sanitizeString (s : string) : string :=
  match sanitizeInput (VStr s) with
  | VStr t => t
  | _ => s
  end.

(** What [validateRequest] returns: [{ data, error: null }] or
    [{ data: null, error }], the error message being a non-empty string. *)
Inductive Validation (A : Type) : Type :=
| Valid (data : A)
| Invalid (error : string).
Arguments Valid {A} _.
Arguments Invalid {A} _.

(** A schema: what [schema.parse] returns, or the issues of the
    [ZodError] it throws. *)
Definition Schema (A : Type) : Type := value -> list Zod.Issue + A.

Definition validateRequest {A} (schema : Schema A) (data : value) : Validation A :=
  let sanitizedData := sanitizeInput data in
  match schema sanitizedData with
  | inr parsed => Valid parsed
  | inl issues => Invalid (Zod.fromZodError issues)
  end.

(** [z.object({ platforms: z.array(z.string()).min(1, ...) })]; the
    parsed object keeps the [platforms] property only. *)
Record PublishData : Type := mkPublishData { platforms : list string }.

Definition publishSchema : Schema PublishData :=
  fun input =>
    match input with
    | VObj props =>
        match of_option (JS.get "platforms" props) with
        | VArr items =>
            let tooSmall :=
              if (length items <? 1)%nat
              then [Zod.TooSmall "At least one platform must be selected" [Zod.Key "platforms"]]
              else [] in
            let '(itemIssues, strings) := Zod.parseStrings [Zod.Key "platforms"] 0 items in
            match (tooSmall ++ itemIssues)%list with
            | [] => inr (mkPublishData strings)
            | issues => inl issues
            end
        | other => inl [Zod.InvalidType "array" (Zod.typeName other) [Zod.Key "platforms"]]
        end
    | other => inl [Zod.InvalidType "object" (Zod.typeName other) []]
    end.

(** The pages the OAuth callback sends. *)
Inductive Paragraph : Type :=
| Text (s : string)
| ErrorText (error : value).

Record HtmlPage : Type := mkPage {
  pageTitle : string;
  heading : string;
  paragraph : Paragraph;
  closeAfterMs : Z
}.

Inductive Body : Type :=
| Json (v : value)
| JsonFlags (r : gmap string bool)
| JsonActivities (l : list Activity.t)
| Html (p : HtmlPage).

Record Response : Type := mkResponse { status : Z; body : Body }.

Definition message (s : string) : Body := Json (VObj [("message", VStr s)]).

Definition failure (s : string) : Body :=
  Json (VObj [("success", VBool false); ("error", VStr s)]).

(** [{ results }]. *)
Definition resultsBody (results : list PublishResult.t) : Body :=
  Json (VObj [("results", VArr (map PublishResult.toJSON results))]).

(** The calls on the store and on the service, as the handlers make
    them. *)
Definition storage_getVideo (id : Z) : M.t (option Video.t) :=
  M.record (CallGetVideo id);; MemStorage.getVideo id.

Definition storage_updateVideo (id : Z) (updateData : VideoPatch.t) : M.t (option Video.t) :=
  M.record (CallUpdateVideo id updateData);; MemStorage.updateVideo id updateData.

Definition storage_createActivity (a : InsertActivity.t) : M.t Activity.t :=
  M.record (CallCreateActivity a);; MemStorage.createActivity a.

Definition storage_getActivitiesByUserId (userId : Z) (limit : option Z)
  : M.t (list Activity.t) :=
  M.record (CallGetActivitiesByUserId userId limit);;
  MemStorage.getActivitiesByUserId userId limit.

Definition socialMediaService_reloadConfig : M.t unit :=
  M.record CallReloadConfig;;
  env ← MOps.env;
  c ← MOps.config;
  MOps.setConfig (SocialMediaService.loadConfig env c).

Definition socialMediaService_getAuthorizationUrl (platform baseUrl : string)
  : M.t (option string) :=
  M.record (CallGetAuthorizationUrl platform baseUrl);;
  env ← MOps.env;
  c ← MOps.config;
  mret (SocialMediaService.getAuthorizationUrl env c platform (Some baseUrl)).

Definition socialMediaService_setAccessToken (platform token : string) : M.t bool :=
  M.record (CallSetAccessToken platform token);;
  c ← MOps.config;
  let '(ok, c') := SocialMediaService.setAccessToken c platform token in
  MOps.setConfig c';;
  mret ok.

Definition socialMediaService_publishVideo (video : Video.t) (platforms : list string)
  : M.t (option (list PublishResult.t)) :=
  h ← MOps.host;
  c ← MOps.config;
  let outcome := SocialMediaService.publishVideo h c video platforms in
  M.record (CallPublishVideo video platforms outcome);;
  mret outcome.

(** The platforms of the results that succeeded:
    [results.filter(r => r.success).map(r => r.platform)]. *)
Definition succeeded (results : list PublishResult.t) : list string :=
  map PublishResult.platform (List.filter PublishResult.success results).

Definition quoted (s : string) : string := String dquote (s +:+ String dquote "").

(** The two activities of the publish handler. *)
Definition publishStarted (video : Video.t) (data : PublishData) : InsertActivity.t :=
  InsertActivity.mk None (Video.userId video) "video_publish_started"
    (Some (VObj [("videoId", VNum (Video.id video));
                 ("message", VStr ("Started publishing " +:+ quoted (Video.title video)
                                   +:+ " to " +:+ join ", " (platforms data)))])).

Definition videoPublished (video : Video.t) (results : list PublishResult.t)
  : InsertActivity.t :=
  InsertActivity.mk None (Video.userId video) "video_published"
    (Some (VObj [("videoId", VNum (Video.id video));
                 ("platforms", VArr (map VStr (succeeded results)));
                 ("message", VStr ("Published " +:+ quoted (Video.title video)
                                   +:+ " to " +:+ join ", " (succeeded results)))])).

(** [POST /api/videos/:id/publish]. *)
Definition publish (idParam : string) (reqBody : value) : M.t Response :=
  match parseInt (sanitizeString idParam) with
  | None => mret (mkResponse 400 (message "Invalid video ID"))
  | Some id =>
      match validateRequest publishSchema reqBody with
      | Invalid error => mret (mkResponse 400 (message error))
      | Valid data =>
          found ← storage_getVideo id;
          match found with
          | None => mret (mkResponse 404 (message "Video not found"))
          | Some video =>
              if negb (truthy_str (Video.videoUrl video)) then
                mret (mkResponse 400
                        (message "Video has not been generated yet. Generate the video first."))
              else
                storage_createActivity (publishStarted video data);;
                outcome ← socialMediaService_publishVideo video (platforms data);
                match outcome with
                | None =>
                    mret (mkResponse 500
                            (failure "An unexpected error occurred while publishing the video"))
                | Some results =>
                    (if existsb PublishResult.success results then
                       storage_updateVideo id (VideoPatch.ofStatus "published");;
                       storage_createActivity (videoPublished video results);;
                       mret tt
                     else mret tt);;
                    mret (mkResponse 200 (resultsBody results))
                end
          end
      end
  end.

(** [GET /api/auth/youtube/callback]. *)
Definition youtubeConnectionFailed (error : value) : HtmlPage :=
  mkPage "YouTube Connection Failed" "YouTube Connection Failed" (ErrorText error) 5000.

Definition invalidRequest : HtmlPage :=
  mkPage "Invalid Request" "Invalid Request" (Text "No authorization code received.") 5000.

Definition youtubeConnected : HtmlPage :=
  mkPage "YouTube Connected" "YouTube Successfully Connected!"
    (Text "You may close this window and return to the application.") 3000.

Definition connectionError : HtmlPage :=
  mkPage "Connection Error" "Connection Error"
    (Text "There was an error connecting to YouTube. Please try again.") 5000.

Definition youtubeCallback (query : value) : M.t Response :=
  let code := prop "code" query in
  let error := prop "error" query in
  if truthy error then mret (mkResponse 400 (Html (youtubeConnectionFailed error)))
  else if negb (truthy code) then mret (mkResponse 400 (Html invalidRequest))
  else
    env ← MOps.env;
    let clientId := env !! "YOUTUBE_CLIENT_ID" in
    let clientSecret := env !! "YOUTUBE_CLIENT_SECRET" in
    if negb (truthy_str clientId) || negb (truthy_str clientSecret) then
      mret (mkResponse 500 (Html connectionError))
    else
      socialMediaService_setAccessToken "youtube" "simulated_access_token";;
      mret (mkResponse 200 (Html youtubeConnected)).

(** [GET /api/social-media/auth-url/:platform]; [hostHeader] is
    [req.get('host')]. *)
Definition authUrl (platformParam : string) (hostHeader : option string) : M.t Response :=
  let platform := sanitizeString platformParam in
  socialMediaService_reloadConfig;;
  let host := if truthy_str hostHeader then default "" hostHeader else "localhost:5000" in
  let baseUrl := host in
  url ← socialMediaService_getAuthorizationUrl platform baseUrl;
  if negb (truthy_str url) then
    mret (mkResponse 400
            (failure ("Platform " +:+ platform +:+ " is not configured or not supported")))
  else
    mret (mkResponse 200 (Json (VObj [("authUrl", VStr (default "" url))]))).

(** [GET /api/activities]; [limitParam] is [req.query.limit]. *)
Definition activities (limitParam : option string) : M.t Response :=
  let userId := 1 in
  let limit :=
    if truthy_str limitParam then
      match parseInt (sanitizeString (default "" limitParam)) with
      | Some parsedLimit => if 0 <? parsedLimit then Some parsedLimit else None
      | None => None
      end
    else None in
  found ← storage_getActivitiesByUserId userId limit;
  mret (mkResponse 200 (JsonActivities found)).

(** [POST /api/check-secrets].  A field of the body is absent, an array
    of strings (what every caller of the endpoint sends), or some other
    JSON value. *)
Inductive Field : Type :=
| Absent
| Strings (l : list string)
| Other (v : value).

Definition fieldTruthy (f : Field) : bool :=
  match f with
  | Absent => false
  | Strings _ => true
  | Other v => truthy v
  end.

(** The names every object inherits from [Object.prototype]. *)
Definition inheritedNames : list string :=
  ["constructor"; "toString"; "toLocaleString"; "valueOf"; "hasOwnProperty";
   "isPrototypeOf"; "propertyIsEnumerable"; "__proto__"; "__defineGetter__";
   "__defineSetter__"; "__lookupGetter__"; "__lookupSetter__"].

(** [!!process.env[key]] for a key chosen by the caller. *)
Definition envHas (env : gmap string string) (key : string) : bool :=
  match env !! key with
  | Some s => negb (String.eqb s "")
  | None => existsb (String.eqb key) inheritedNames
  end.

(** The platforms branch: [result] after the [forEach] and the three
    checks. *)
Definition flagsFrom (platforms : list string) (r : gmap string bool) : gmap string bool :=
  fold_left (fun result platform => assignFlag platform false result) platforms r.

Definition initFlags (platforms : list string) : gmap string bool :=
  flagsFrom platforms ∅.

Definition includesString (l : list string) (s : string) : bool :=
  existsb (String.eqb s) l.

Definition checkPlatforms (env : gmap string string) (platforms : list string)
  : gmap string bool :=
  let result := initFlags platforms in
  let result :=
    if includesString platforms "youtube" then
      <["youtube" := truthy_str (env !! "YOUTUBE_CLIENT_ID")
                     && truthy_str (env !! "YOUTUBE_CLIENT_SECRET")]> result
    else result in
  let result :=
    if includesString platforms "tiktok" then
      <["tiktok" := truthy_str (env !! "TIKTOK_CLIENT_KEY")
                    && truthy_str (env !! "TIKTOK_CLIENT_SECRET")]> result
    else result in
  let result :=
    if includesString platforms "instagram" then
      <["instagram" := truthy_str (env !! "INSTAGRAM_ACCESS_TOKEN")]> result
    else result in
  result.

Definition checkSecrets (secretKeys platforms : Field) : M.t Response :=
  env ← MOps.env;
  if fieldTruthy secretKeys then
    match secretKeys with
    | Strings keys =>
        let missing := List.filter (fun key => negb (envHas env key)) keys in
        mret (mkResponse 200
                (Json (VObj [("checked", VArr (map VStr keys));
                             ("missing", VArr (map VStr missing));
                             ("complete", VBool (length missing =? 0)%nat)])))
    | _ => mret (mkResponse 400 (Json (VObj [("error", VStr "secretKeys must be an array")])))
    end
  else if fieldTruthy platforms then
    match platforms with
    | Strings ps => mret (mkResponse 200 (JsonFlags (checkPlatforms env ps)))
    | _ => mret (mkResponse 400 (Json (VObj [("error", VStr "platforms must be an array")])))
    end
  else
    mret (mkResponse 400
            (Json (VObj [("error",
                          VStr "Request must include either 'secretKeys' or 'platforms' parameter")]))).

End Routes.

(** ** Notions used to state the properties *)

(** The configurations the service can be in while the process runs with
    environment [env]: the constructor loads it, and only [reloadConfig]
    and [setAccessToken] change it afterwards.  No code of the repository
    writes [process.env]. *)
Inductive reachable (env : gmap string string) : SocialMediaAuthConfig.t -> Prop :=
| reach_construct : reachable env (SocialMediaService.construct env)
| reach_reload c :
    reachable env c -> reachable env (SocialMediaService.loadConfig env c)
| reach_setAccessToken c platform token :
    reachable env c ->
    reachable env (snd (SocialMediaService.setAccessToken c platform token)).

(** The access token the service holds for YouTube. *)
Definition youtubeToken (c : SocialMediaAuthConfig.t) : option string :=
  match SocialMediaAuthConfig.youtube c with
  | Some y => YoutubeConfig.accessToken y
  | None => None
  end.

(** The platforms of the product. *)
Definition supportedPlatforms : list string := ["youtube"; "tiktok"; "instagram"].

(** The app-level client identifier and client secret of a platform, by
    the names of their environment variables ([askForSecrets] in
    src/utils.ts lists them). *)
Definition appCredentials (platform : string) : option (string * string) :=
  if String.eqb platform "youtube" then Some ("YOUTUBE_CLIENT_ID", "YOUTUBE_CLIENT_SECRET")
  else if String.eqb platform "tiktok" then Some ("TIKTOK_CLIENT_KEY", "TIKTOK_CLIENT_SECRET")
  else if String.eqb platform "instagram" then Some ("FACEBOOK_APP_ID", "FACEBOOK_APP_SECRET")
  else None.

(** Both of them are present in the environment. *)
Definition credentialsPresent (env : gmap string string) (platform : string) : bool :=
  match appCredentials platform with
  | Some (identifier, secret) => truthy_str (env !! identifier) && truthy_str (env !! secret)
  | None => false
  end.

(** What the secrets check reports for a platform it was asked about:
    for YouTube and TikTok the two app-level credentials, for Instagram
    the access token. *)
Definition reportedFlag (env : gmap string string) (platform : string) : bool :=
  if String.eqb platform "instagram" then truthy_str (env !! "INSTAGRAM_ACCESS_TOKEN")
  else credentialsPresent env platform.

(** [a] is at least as new as [b]. *)
Definition notOlder (a b : Activity.t) : Prop :=
  Activity.createdAt b <= Activity.createdAt a.

(** The activities of a user, in stored order. *)
Definition activitiesOf (userId : Z) (st : MemStorageState.t) : list Activity.t :=
  List.filter (fun a => Activity.userId a =? userId) (MemStorageState.activities st).

(** A video whose status is [s] and whose other columns are those of [v]. *)
Definition withStatus (s : string) (v : Video.t) : Video.t :=
  Video.mk (Video.id v) (Video.title v) (Video.prompt v) (Video.style v)
    (Video.duration v) (Video.aspectRatio v) (Video.platforms v) s
    (Video.thumbnailUrl v) (Video.videoUrl v) (Video.createdAt v) (Video.userId v).

(** A response that reports a failure. *)
Definition isFailure (r : Routes.Response) : Prop := 400 <= Routes.status r.

(** ** Concrete processes on which the statements are exercised *)

Module Example.

Definition host : Host.t :=
  Host.mk (fun u => if String.eqb u "http://" then None else Some u)
    (fun p => p) (join "/") "/srv" (fun _ => true).

Definition envYoutube : gmap string string :=
  <["YOUTUBE_CLIENT_ID" := "client-id"]> (<["YOUTUBE_CLIENT_SECRET" := "client-secret"]> ∅).

Definition envInstagramToken : gmap string string :=
  <["INSTAGRAM_ACCESS_TOKEN" := "token"]> ∅.

Definition envFacebookApp : gmap string string :=
  <["FACEBOOK_APP_ID" := "app-id"]> (<["FACEBOOK_APP_SECRET" := "app-secret"]> ∅).

Definition video : Video.t :=
  Video.mk 1 "Launch" "A short product launch video" "cinematic" "30 seconds" "16:9"
    (Some ["youtube"]) "draft" None (Some "/generated/launch.mp4") 900 1.

Definition draft : Video.t :=
  Video.mk 2 "Draft" "A video that was never generated" "minimal" "15 seconds" "9:16"
    (Some ["tiktok"]) "draft" None None 950 1.

Definition activity (id userId createdAt : Z) : Activity.t :=
  Activity.mk id None userId "create_video" None createdAt.

Definition store : MemStorageState.t :=
  MemStorageState.mk (<[1 := video]> (<[2 := draft]> ∅))
    [activity 1 1 900; activity 2 7 910; activity 3 1 950; activity 4 1 950] 5.

Definition clock (n : nat) : Z := 1000 + Z.of_nat n.

(** A process started with the YouTube credentials set. *)
Definition world : World.t :=
  World.mk envYoutube host clock 0 store (SocialMediaService.construct envYoutube).

(** The same process after the OAuth callback stored a token. *)
Definition authorized : World.t :=
  World.withConfig
    (snd (SocialMediaService.setAccessToken (World.config world) "youtube" "simulated_access_token"))
    world.

(** A process started with no credentials. *)
Definition bare : World.t :=
  World.mk ∅ host clock 0 store (SocialMediaService.construct ∅).

Definition bodyOf (platforms : list string) : value :=
  VObj [("platforms", VArr (map VStr platforms))].

(** What the service answers for [video] and these two platforms in
    [authorized] and in [world]. *)
Definition youtubeOk : PublishResult.t :=
  PublishResult.mk true "youtube" (Some "https://youtube.com/watch?v=dQw4w9WgXcQ")
    (Some "Video successfully published to YouTube") None.

Definition youtubeDenied : PublishResult.t :=
  PublishResult.mk false "youtube" None None
    (Some "YouTube not authorized. Please connect your YouTube account.").

Definition tiktokDenied : PublishResult.t :=
  PublishResult.mk false "tiktok" None None
    (Some "TikTok not authorized. Please connect your TikTok account.").

Definition queryCode : value := VObj [("code", VStr "4/0AX4XfWh")].
Definition queryDenied : value := VObj [("error", VStr "access_denied")].
Definition queryCodeAndError : value :=
  VObj [("code", VStr "4/0AX4XfWh"); ("error", VStr "access_denied")].

End Example.

(** ** More of the store and of the routes *)

(** [InsertVideo]: what [createVideo] receives. *)
Module InsertVideo.
Record t : Type := mk {
  title : string;
  prompt : string;
  style : string;
  duration : string;
  aspectRatio : string;
  platforms : option (list string);
  status : option string;
  thumbnailUrl : option string;
  videoUrl : option string;
  userId : Z
}.
End InsertVideo.

(** [createVideo] and [deleteVideo] of [MemStorage].  The counter of
    video identifiers is the one part of the store the process state does
    not hold: [createVideo] takes it and gives back its next value. *)
Module MemStorageVideos.
Import MemStorageState.

(** [x || d] and [x || null] on a string that may be missing. *)
Definition stringOr (d : string) (o : option string) : string :=
  match o with
  | Some s => if String.eqb s "" then d else s
  | None => d
  end.

Definition stringOrNull (o : option string) : option string :=
  match o with
  | Some s => if String.eqb s "" then None else Some s
  | None => None
  end.

Definition createVideo (insertVideo : InsertVideo.t) (videoIdCounter : Z)
  : M.t (Video.t * Z) :=
  let id := videoIdCounter in
  now ← M.newDate;
  let video :=
    Video.mk id
      (InsertVideo.title insertVideo) (InsertVideo.prompt insertVideo)
      (InsertVideo.style insertVideo) (InsertVideo.duration insertVideo)
      (InsertVideo.aspectRatio insertVideo)
      (Some (default [] (InsertVideo.platforms insertVideo)))
      (stringOr "draft" (InsertVideo.status insertVideo))
      (stringOrNull (InsertVideo.thumbnailUrl insertVideo))
      (stringOrNull (InsertVideo.videoUrl insertVideo))
      now
      (InsertVideo.userId insertVideo) in
  MOps.modifyStorage
    (fun s => mk (<[id := video]> (videos s)) (activities s) (activityIdCounter s));;
  MemStorage.createActivity
    (InsertActivity.mk (Some id) (InsertVideo.userId insertVideo) "create_video"
       (Some (VObj [("title", VStr (InsertVideo.title insertVideo))])));;
  mret (video, videoIdCounter + 1).

Definition deleteVideo (id : Z) : M.t bool :=
  st ← MOps.storage;
  match videos st !! id with
  | None => mret false
  | Some video =>
      MOps.modifyStorage
        (fun s => mk (delete id (videos s)) (activities s) (activityIdCounter s));;
      MemStorage.createActivity
        (InsertActivity.mk (Some id) (Video.userId video) "delete_video"
           (Some (VObj [("title", VStr (Video.title video))])));;
      mret true
  end.
End MemStorageVideos.

(** The routes that read, delete and download one video, and the list of
    configured platforms (src/routes.ts).  These handlers record no
    calls. *)
Module VideoRoutes.
Import Routes.

Inductive Reply : Type :=
| Sent (r : Response)
| SentVideo (video : Video.t)
| NoContent
| Redirect (url : string).

(** [GET /api/videos/:id]. *)
Definition getVideo (idParam : string) : M.t Reply :=
  match parseInt (sanitizeString idParam) with
  | None => mret (Sent (mkResponse 400 (message "Invalid video ID")))
  | Some id =>
      found ← MemStorage.getVideo id;
      match found with
      | None => mret (Sent (mkResponse 404 (message "Video not found")))
      | Some video => mret (SentVideo video)
      end
  end.

(** [DELETE /api/videos/:id]. *)
Definition deleteVideo (idParam : string) : M.t Reply :=
  match parseInt (sanitizeString idParam) with
  | None => mret (Sent (mkResponse 400 (message "Invalid video ID")))
  | Some id =>
      success ← MemStorageVideos.deleteVideo id;
      if negb success then mret (Sent (mkResponse 404 (message "Video not found")))
      else mret NoContent
  end.

(** [GET /api/videos/:id/download]. *)
Definition download (idParam : string) : M.t Reply :=
  match parseInt (sanitizeString idParam) with
  | None => mret (Sent (mkResponse 400 (message "Invalid video ID")))
  | Some id =>
      found ← MemStorage.getVideo id;
      match found with
      | None => mret (Sent (mkResponse 404 (message "Video not found")))
      | Some video =>
          if negb (truthy_str (Video.videoUrl video)) then
            mret (Sent (mkResponse 400 (message "Video has not been generated yet")))
          else mret (Redirect (default "" (Video.videoUrl video)))
      end
  end.

(** [GET /api/social-media/platforms]. *)
Definition platforms : M.t Reply :=
  c ← MOps.config;
  mret (Sent (mkResponse 200
                (Json (VObj [("platforms",
                              VArr (map VStr (SocialMediaService.getConfiguredPlatforms c)))])))).
End VideoRoutes.

(** ** Notions used to state the further properties *)

(** No object inside [v] has an own property named [__proto__]. *)
Fixpoint noProtoKey (v : value) : bool :=
  match v with
  | VArr items => forallb noProtoKey items
  | VObj props =>
      forallb (fun kv => negb (String.eqb (fst kv) "__proto__") && noProtoKey (snd kv)) props
  | _ => true
  end.

(** The two first phases of [parseInt], told with equality tests: the
    sign, then the radix prefix. *)
Definition splitSign (s : string) : bool * string :=
  match s with
  | String a rest =>
      if Ascii.eqb a "-" then (true, rest)
      else if Ascii.eqb a "+" then (false, rest)
      else (false, s)
  | EmptyString => (false, s)
  end.

Definition splitRadix (s : string) : Z * string :=
  match s with
  | String a (String b rest) =>
      if Ascii.eqb a "0" && (Ascii.eqb b "x" || Ascii.eqb b "X") then (16, rest)
      else (10, s)
  | _ => (10, s)
  end.

(** The name under which the service answers for a requested platform:
    the lower-case name of a supported platform, the name as given
    otherwise. *)
Definition canonicalName (platform : string) : string :=
  let p := toLowerCase platform in
  if existsb (String.eqb p) supportedPlatforms then p else platform.

(** The access token the service holds under a lower-case platform
    name. *)
Definition tokenOf (c : SocialMediaAuthConfig.t) (name : string) : option string :=
  if String.eqb name "youtube" then youtubeToken c
  else if String.eqb name "tiktok" then
    match SocialMediaAuthConfig.tiktok c with
    | Some k => TiktokConfig.accessToken k
    | None => None
    end
  else if String.eqb name "instagram" then
    match SocialMediaAuthConfig.instagram c with
    | Some i => InstagramConfig.accessToken i
    | None => None
    end
  else None.

(** The YouTube and TikTok entries of the service mirror the
    environment: an entry is there exactly when both credentials are set,
    and it holds them. *)
Definition mirrorsEnv (env : gmap string string) (c : SocialMediaAuthConfig.t) : Prop :=
  match SocialMediaAuthConfig.youtube c with
  | Some y =>
      env !! "YOUTUBE_CLIENT_ID" = Some (YoutubeConfig.clientId y)
      /\ env !! "YOUTUBE_CLIENT_SECRET" = Some (YoutubeConfig.clientSecret y)
      /\ SocialMediaService.nonEmpty (YoutubeConfig.clientId y) = true
      /\ SocialMediaService.nonEmpty (YoutubeConfig.clientSecret y) = true
  | None =>
      truthy_str (env !! "YOUTUBE_CLIENT_ID") && truthy_str (env !! "YOUTUBE_CLIENT_SECRET")
      = false
  end
  /\ match SocialMediaAuthConfig.tiktok c with
     | Some k =>
         env !! "TIKTOK_CLIENT_KEY" = Some (TiktokConfig.clientKey k)
         /\ env !! "TIKTOK_CLIENT_SECRET" = Some (TiktokConfig.clientSecret k)
         /\ SocialMediaService.nonEmpty (TiktokConfig.clientKey k) = true
         /\ SocialMediaService.nonEmpty (TiktokConfig.clientSecret k) = true
     | None =>
         truthy_str (env !! "TIKTOK_CLIENT_KEY") && truthy_str (env !! "TIKTOK_CLIENT_SECRET")
         = false
     end.

(** Every stored activity has an identifier below the counter. *)
Definition freshIds (st : MemStorageState.t) : Prop :=
  Forall (fun a => Activity.id a < MemStorageState.activityIdCounter st)
    (MemStorageState.activities st).

(** The file [publishVideo] looks for. *)
Definition mediaFile (h : Host.t) (videoUrl : string) : option string :=
  match Host.urlPathname h videoUrl with
  | Some urlPath =>
      Some (Host.pathJoin h [Host.cwd h; "public"; "generated"; Host.pathBasename h urlPath])
  | None => None
  end.

(** The media of a video resolves: its URL is set and parses, and the
    file is there. *)
Definition mediaResolves (h : Host.t) (video : Video.t) : Prop :=
  exists videoUrl file,
    Video.videoUrl video = Some videoUrl
    /\ videoUrl <> ""
    /\ mediaFile h videoUrl = Some file
    /\ Host.fsAccess h file = true.

Module Example2.

Definition insertVideo : InsertVideo.t :=
  InsertVideo.mk "Teaser" "A teaser for the autumn collection" "energetic" "15 seconds"
    "9:16" (Some ["instagram"]) None (Some "") None 1.

Definition bodyMixedCase : value := Example.bodyOf ["YouTube"; "vimeo"].

(** A video whose media URL [new URL] rejects, and a process that
    stores it. *)
Definition broken : Video.t :=
  Video.mk 3 "Broken" "A video with a media URL that is no URL" "minimal" "15 seconds"
    "16:9" (Some ["youtube"]) "draft" None (Some "http://") 960 1.

Definition worldBroken : World.t :=
  World.mk Example.envYoutube Example.host Example.clock 0
    (MemStorageState.mk (<[3 := broken]> ∅) [] 1)
    (SocialMediaService.construct Example.envYoutube).

End Example2.

(** * Properties *)

(** ** [sanitizeInput] *)

Section Sanitizer.

Lemma value_ind' (P : value -> Prop)
  (Hundef : P VUndefined) (Hnull : P VNull)
  (Hbool : forall b, P (VBool b)) (Hnum : forall n, P (VNum n))
  (Hstr : forall s, P (VStr s))
  (Harr : forall items, Forall P items -> P (VArr items))
  (Hobj : forall props, Forall (fun kv => P (snd kv)) props -> P (VObj props)) :
  forall v, P v.
Proof.
  fix IH 1. intros v. destruct v as [ | | b | n | s | items | props ].
  - exact Hundef.
  - exact Hnull.
  - apply Hbool.
  - apply Hnum.
  - apply Hstr.
  - apply Harr. induction items as [|x xs IHxs]; constructor.
    + apply IH.
    + exact IHxs.
  - apply Hobj. induction props as [|[k x] xs IHxs]; constructor.
    + apply IH.
    + exact IHxs.
Qed.

Lemma occurs_append c a b : occurs c (a +:+ b) = occurs c a || occurs c b.
Proof.
  induction a as [|x a IH]; simpl; [reflexivity|].
  rewrite IH. now rewrite orb_assoc.
Qed.

(** A pass leaves no occurrence of the character it replaces, as long as
    the replacement text has none. *)
Lemma occurs_replaceAll_same c r s :
  occurs c r = false -> occurs c (replaceAll c r s) = false.
Proof.
  intros Hr. induction s as [|a s IH]; simpl; [reflexivity|].
  destruct (Ascii.eqb a c) eqn:E.
  - now rewrite occurs_append, Hr, IH.
  - simpl. now rewrite E, IH.
Qed.

(** A pass introduces no character that neither its input nor the
    replacement text has. *)
Lemma occurs_replaceAll_other d c r s :
  occurs d r = false -> occurs d s = false -> occurs d (replaceAll c r s) = false.
Proof.
  intros Hr. induction s as [|a s IH]; simpl; [reflexivity|].
  intros Hs. apply orb_false_iff in Hs as [Ha Hs].
  destruct (Ascii.eqb a c).
  - now rewrite occurs_append, Hr, IH.
  - simpl. now rewrite Ha, IH.
Qed.

Lemma replaceAll_absent c r s : occurs c s = false -> replaceAll c r s = s.
Proof.
  induction s as [|a s IH]; simpl; [reflexivity|].
  intros Hs. apply orb_false_iff in Hs as [Ha Hs].
  now rewrite Ha, IH.
Qed.

Lemma cleanString_occurs s :
  cleanString s = true <-> forall c, In c rawChars -> occurs c s = false.
Proof.
  unfold cleanString. rewrite forallb_forall. split; intros H c Hc.
  - apply negb_true_iff. now apply H.
  - apply negb_true_iff. now apply H.
Qed.

Ltac pass_clean :=
  repeat first
    [ apply occurs_replaceAll_same; reflexivity
    | apply occurs_replaceAll_other; [reflexivity|] ].

Lemma escapeString_clean s : cleanString (escapeString s) = true.
Proof.
  apply cleanString_occurs. intros c Hc. unfold escapeString.
  simpl in Hc. destruct Hc as [<-|[<-|[<-|[<-|[<-|[]]]]]].
  all: pass_clean.
Qed.

Lemma escapeString_fixed s : cleanString s = true -> escapeString s = s.
Proof.
  intros H. pose proof (proj1 (cleanString_occurs s) H) as Hc.
  unfold escapeString.
  rewrite (replaceAll_absent "<") by (apply Hc; simpl; tauto).
  rewrite (replaceAll_absent ">") by (apply Hc; simpl; tauto).
  rewrite (replaceAll_absent dquote) by (apply Hc; simpl; tauto).
  rewrite (replaceAll_absent "'") by (apply Hc; simpl; tauto).
  now rewrite (replaceAll_absent "/") by (apply Hc; simpl; tauto).
Qed.

Lemma escapeString_idempotent s : escapeString (escapeString s) = escapeString s.
Proof. apply escapeString_fixed, escapeString_clean. Qed.

Lemma sanitizeInput_object props : sanitizeInput (VObj props) = VObj (copyProps props).
Proof. reflexivity. Qed.

Lemma sanitizeInput_clean v : allStrings cleanString (sanitizeInput v) = true.
Proof.
  induction v as [ | | b | n | s | items IH | props IH ] using value_ind';
    try reflexivity.
  - simpl. apply escapeString_clean.
  - simpl. induction IH as [|x xs Hx _ IHxs]; simpl; [reflexivity|].
    now rewrite Hx, IHxs.
  - rewrite sanitizeInput_object. simpl.
    induction IH as [|[k x] xs Hx _ IHxs]; simpl; [reflexivity|].
    destruct (String.eqb k "__proto__"); simpl; [exact IHxs|].
    simpl in Hx. now rewrite Hx, IHxs.
Qed.

Lemma sanitizeInput_idempotent v : sanitizeInput (sanitizeInput v) = sanitizeInput v.
Proof.
  induction v as [ | | b | n | s | items IH | props IH ] using value_ind';
    try reflexivity.
  - simpl. now rewrite escapeString_idempotent.
  - simpl. f_equal. induction IH as [|x xs Hx _ IHxs]; simpl; [reflexivity|].
    now rewrite Hx, IHxs.
  - rewrite !sanitizeInput_object. f_equal.
    induction IH as [|[k x] xs Hx _ IHxs]; simpl; [reflexivity|].
    destruct (String.eqb k "__proto__") eqn:E; simpl; [exact IHxs|].
    rewrite E. simpl in Hx. now rewrite Hx, IHxs.
Qed.

(** C9.  The sanitizer is idempotent on every value (strings, arrays and
    objects at any depth, the other values being returned as they are),
    and no string value of its output holds one of the characters
    [<], [>], the double quote, the single quote or [/].  Property names
    are not values: the source copies them unchanged. *)
Theorem sanitizeInput_idempotent_and_clean (x : value) :
  sanitizeInput (sanitizeInput x) = sanitizeInput x
  /\ allStrings cleanString (sanitizeInput x) = true.
Proof.
  split; [apply sanitizeInput_idempotent | apply sanitizeInput_clean].
Qed.

Example sanitizeInput_nested :
  sanitizeInput (VObj [("<tag>", VArr [VStr "<b>it's</b>"; VNum 3]); ("__proto__", VNull)])
  = VObj [("<tag>", VArr [VStr "&lt;b&gt;it&#x27;s&lt;&#x2F;b&gt;"; VNum 3])].
Proof. reflexivity. Qed.

End Sanitizer.

(** ** [Array.prototype.sort] and [getActivitiesByUserId] *)

Section Sorting.
Context {A : Type} (cmp : A -> A -> Z).

Lemma sortInsert_Permutation x l : Permutation (sortInsert cmp x l) (x :: l).
Proof.
  induction l as [|y l IH]; simpl; [reflexivity|].
  destruct (0 <? cmp x y); [|reflexivity].
  rewrite IH. apply perm_swap.
Qed.

Lemma sort_Permutation l : Permutation (JS.sort cmp l) l.
Proof.
  induction l as [|x l IH]; simpl; [reflexivity|].
  rewrite sortInsert_Permutation. now constructor.
Qed.

(** Stability: the elements a predicate [p] selects keep their order,
    provided the comparator never asks to move one of them behind another. *)
Lemma sortInsert_filter (p : A -> bool) x l :
  (forall y, p x = true -> p y = true -> cmp x y <= 0) ->
  List.filter p (sortInsert cmp x l) = List.filter p (x :: l).
Proof.
  intros Hp. induction l as [|y l IH]; simpl; [reflexivity|].
  destruct (0 <? cmp x y) eqn:E; [|reflexivity].
  simpl. rewrite IH. simpl.
  destruct (p x) eqn:Px, (p y) eqn:Py; try reflexivity.
  apply Z.ltb_lt in E. specialize (Hp y eq_refl Py). lia.
Qed.

Lemma sort_filter (p : A -> bool) l :
  (forall x y, p x = true -> p y = true -> cmp x y <= 0) ->
  List.filter p (JS.sort cmp l) = List.filter p l.
Proof.
  intros Hp. induction l as [|x l IH]; simpl; [reflexivity|].
  rewrite sortInsert_filter by (intros y; apply Hp).
  simpl. now rewrite IH.
Qed.

End Sorting.

Section Activities.

Lemma notOlder_sortInsert x l :
  StronglySorted notOlder l -> StronglySorted notOlder (sortInsert MemStorage.newestFirst x l).
Proof.
  induction 1 as [|y l Hl IH Hy]; simpl.
  - repeat constructor.
  - unfold MemStorage.newestFirst at 1.
    destruct (0 <? Activity.createdAt y - Activity.createdAt x) eqn:E.
    + apply Z.ltb_lt in E. constructor; [exact IH|].
      apply (Permutation_Forall (Permutation_sym (sortInsert_Permutation _ x l))).
      constructor; [unfold notOlder; lia | exact Hy].
    + apply Z.ltb_ge in E. constructor; [now constructor|].
      constructor; [unfold notOlder; lia|].
      eapply Forall_impl; [exact Hy|].
      unfold notOlder. intros a Ha. lia.
Qed.

Lemma notOlder_sort l : StronglySorted notOlder (JS.sort MemStorage.newestFirst l).
Proof.
  induction l as [|x l IH]; simpl; [constructor|].
  now apply notOlder_sortInsert.
Qed.

Lemma slice0_positive {A} (l : list A) n : 0 < n -> slice0 l n = take (Z.to_nat n) l.
Proof.
  intros Hn. unfold slice0.
  destruct (n <? 0) eqn:E; [apply Z.ltb_lt in E; lia|].
  destruct (Z.min_spec n (Z.of_nat (length l))) as [[_ ->]|[Hle ->]]; [reflexivity|].
  rewrite Nat2Z.id, !firstn_all2; auto; lia.
Qed.

Lemma StronglySorted_take {A} (R : A -> A -> Prop) k l :
  StronglySorted R l -> StronglySorted R (take k l).
Proof.
  intros H. revert k. induction H as [|x l Hl IH Hx]; intros [|k]; simpl;
    try constructor.
  - apply IH.
  - now apply Forall_take.
Qed.

(** The query leaves the process as it was and calls nothing else. *)
Lemma getActivitiesByUserId_run userId limit w :
  MemStorage.getActivitiesByUserId userId limit w =
  M.mkRun
    (let full := JS.sort MemStorage.newestFirst (activitiesOf userId (World.storage w)) in
     match limit with
     | Some n => if n =? 0 then full else slice0 full n
     | None => full
     end) w [].
Proof. reflexivity. Qed.

(** C10, as amended.  For every store, user and limit that is absent or
    positive, [getActivitiesByUserId] leaves the store as it was and
    returns the first entries (all of them without a limit, at most
    [limit] of them otherwise) of a list that holds exactly the stored
    activities of that user, newest first, activities created in the same
    millisecond keeping their stored order. *)
Theorem getActivitiesByUserId_spec (w : World.t) (userId : Z) (limit : option Z) :
  (forall n, limit = Some n -> 0 < n) ->
  let run := MemStorage.getActivitiesByUserId userId limit w in
  M.final run = w
  /\ exists full : list Activity.t,
       Permutation full (activitiesOf userId (World.storage w))
       /\ StronglySorted notOlder full
       /\ (forall t, List.filter (fun a => Activity.createdAt a =? t) full
                     = List.filter (fun a => Activity.createdAt a =? t)
                         (activitiesOf userId (World.storage w)))
       /\ M.result run
          = match limit with
            | Some n => take (Z.to_nat n) full
            | None => full
            end
       /\ StronglySorted notOlder (M.result run)
       /\ match limit with
          | Some n => Z.of_nat (length (M.result run)) <= n
          | None => M.result run = full
          end.
Proof.
  intros Hlimit run. subst run. rewrite getActivitiesByUserId_run. simpl.
  split; [reflexivity|].
  set (full := JS.sort MemStorage.newestFirst (activitiesOf userId (World.storage w))).
  assert (Hsorted : StronglySorted notOlder full) by apply notOlder_sort.
  exists full. split; [apply sort_Permutation|]. split; [exact Hsorted|].
  split.
  { intros t. apply sort_filter. intros x y Hx Hy.
    apply Z.eqb_eq in Hx, Hy. unfold MemStorage.newestFirst. lia. }
  destruct limit as [n|].
  - specialize (Hlimit n eq_refl).
    destruct (n =? 0) eqn:E; [apply Z.eqb_eq in E; lia|].
    rewrite slice0_positive by exact Hlimit.
    split; [reflexivity|]. split; [now apply StronglySorted_take|].
    rewrite length_take. lia.
  - split; [reflexivity|]. split; [exact Hsorted | reflexivity].
Qed.

Lemma getActivitiesByUserId_spec_witness :
  M.result (MemStorage.getActivitiesByUserId 1 (Some 2) Example.world)
  = [Example.activity 3 1 950; Example.activity 4 1 950]
  /\ M.final (MemStorage.getActivitiesByUserId 1 (Some 2) Example.world) = Example.world.
Proof.
  split; [vm_compute; reflexivity|].
  refine (proj1 (getActivitiesByUserId_spec Example.world 1 (Some 2) _)).
  intros n [= <-]. lia.
Defined.

(** C10 as stated fails for the limit [0]: the source tests the limit
    for truthiness, so a limit of [0] returns every activity of the user
    (three of them here), not at most zero. *)
Lemma getActivitiesByUserId_limit_zero :
  M.result (MemStorage.getActivitiesByUserId 1 (Some 0) Example.world)
  = [Example.activity 3 1 950; Example.activity 4 1 950; Example.activity 1 1 900]
  /\ ~ (Z.of_nat (length (M.result
          (MemStorage.getActivitiesByUserId 1 (Some 0) Example.world))) <= 0).
Proof.
  split; [vm_compute; reflexivity|].
  vm_compute. intros H. apply H. reflexivity.
Qed.

(** The route [GET /api/activities] forwards a limit only when it is
    positive. *)
Lemma activities_route_limit limitParam w userId limit :
  In (CallGetActivitiesByUserId userId limit) (M.calls (Routes.activities limitParam w)) ->
  userId = 1 /\ forall n, limit = Some n -> 0 < n.
Proof.
  unfold Routes.activities. simpl. intros [H|[]]. injection H as <- <-.
  split; [reflexivity|]. intros n.
  destruct (truthy_str limitParam); [|discriminate].
  destruct (parseInt _) as [k|]; [|discriminate].
  destruct (0 <? k) eqn:E; [|discriminate].
  intros [= <-]. now apply Z.ltb_lt.
Qed.

End Activities.

(** ** The secrets check *)

Section CheckSecrets.
Import Routes.

Lemma includesString_In l s : includesString l s = true <-> In s l.
Proof.
  unfold includesString. rewrite existsb_exists. split.
  - intros (x & Hx & E). apply String.eqb_eq in E. now subst.
  - intros H. exists s. split; [exact H | apply String.eqb_refl].
Qed.

Lemma includesString_false l s : ~ In s l -> includesString l s = false.
Proof.
  intros H. destruct (includesString l s) eqn:E; [|reflexivity].
  now apply includesString_In in E.
Qed.

Lemma flagsFrom_keep platforms (r : gmap string bool) k :
  r !! k = Some false -> flagsFrom platforms r !! k = Some false.
Proof.
  revert r. induction platforms as [|p ps IH]; intros r Hr; simpl; [exact Hr|].
  apply IH. unfold assignFlag. destruct (String.eqb p "__proto__"); [exact Hr|].
  destruct (decide (p = k)) as [->|Hne].
  - apply lookup_insert_eq.
  - now rewrite lookup_insert_ne.
Qed.

Lemma flagsFrom_In platforms (r : gmap string bool) k :
  In k platforms -> k <> "__proto__" -> flagsFrom platforms r !! k = Some false.
Proof.
  revert r. induction platforms as [|p ps IH]; intros r Hin Hk; simpl; [destruct Hin|].
  destruct Hin as [->|Hin]; [|now apply IH].
  apply flagsFrom_keep. unfold assignFlag.
  destruct (String.eqb k "__proto__") eqn:E; [apply String.eqb_eq in E; contradiction|].
  apply lookup_insert_eq.
Qed.

Lemma flagsFrom_never_true platforms (r : gmap string bool) k :
  r !! k <> Some true -> flagsFrom platforms r !! k <> Some true.
Proof.
  revert r. induction platforms as [|p ps IH]; intros r Hr; simpl; [exact Hr|].
  apply IH. unfold assignFlag. destruct (String.eqb p "__proto__"); [exact Hr|].
  destruct (decide (p = k)) as [->|Hne].
  - rewrite lookup_insert_eq. discriminate.
  - now rewrite lookup_insert_ne.
Qed.

Lemma initFlags_In platforms k :
  In k platforms -> k <> "__proto__" -> initFlags platforms !! k = Some false.
Proof. apply flagsFrom_In. Qed.

Lemma initFlags_never_true platforms k : initFlags platforms !! k <> Some true.
Proof. apply flagsFrom_never_true. rewrite lookup_empty. discriminate. Qed.

(** What [result[p]] is after the three checks, for a name [p] other
    than the three platforms. *)
Lemma checkPlatforms_other env platforms p :
  ~ In p supportedPlatforms ->
  checkPlatforms env platforms !! p = initFlags platforms !! p.
Proof.
  intros Hp. unfold checkPlatforms.
  assert (p <> "youtube" /\ p <> "tiktok" /\ p <> "instagram") as (Hy & Ht & Hi).
  { unfold supportedPlatforms in Hp. simpl in Hp. repeat split; intros ->; tauto. }
  destruct (includesString platforms "instagram");
    [rewrite lookup_insert_ne by congruence|];
    (destruct (includesString platforms "tiktok");
      [rewrite lookup_insert_ne by congruence|]);
    (destruct (includesString platforms "youtube");
      [rewrite lookup_insert_ne by congruence|]); reflexivity.
Qed.

Lemma checkPlatforms_supported env platforms p :
  In p platforms -> In p supportedPlatforms ->
  checkPlatforms env platforms !! p = Some (reportedFlag env p).
Proof.
  intros Hin Hp. unfold checkPlatforms.
  destruct Hp as [<-|[<-|[<-|[]]]];
    rewrite (proj2 (includesString_In platforms _) Hin).
  - destruct (includesString platforms "instagram");
      [rewrite lookup_insert_ne by discriminate|];
      (destruct (includesString platforms "tiktok");
        [rewrite lookup_insert_ne by discriminate|]);
      now rewrite lookup_insert_eq.
  - destruct (includesString platforms "instagram");
      [rewrite lookup_insert_ne by discriminate|];
      now rewrite lookup_insert_eq.
  - now rewrite lookup_insert_eq.
Qed.

(** C5, as amended.  When the secrets check is asked about a list of
    platform names, it reports [youtube] (and [tiktok]) as configured
    exactly when both its client identifier and its client secret are set
    in the environment, and it reports [instagram] as configured exactly
    when [INSTAGRAM_ACCESS_TOKEN] is set.  A name outside the three is
    never reported as configured (its flag is [false]; the name
    [__proto__] gets no flag at all), and the handler answers with the
    report. *)
Theorem checkPlatforms_report (env : gmap string string) (platforms : list string)
    (p : string) :
  In p platforms ->
  (p = "youtube" ->
     checkPlatforms env platforms !! p
     = Some (truthy_str (env !! "YOUTUBE_CLIENT_ID")
             && truthy_str (env !! "YOUTUBE_CLIENT_SECRET")))
  /\ (p = "tiktok" ->
        checkPlatforms env platforms !! p
        = Some (truthy_str (env !! "TIKTOK_CLIENT_KEY")
                && truthy_str (env !! "TIKTOK_CLIENT_SECRET")))
  /\ (p = "instagram" ->
        checkPlatforms env platforms !! p
        = Some (truthy_str (env !! "INSTAGRAM_ACCESS_TOKEN")))
  /\ (~ In p supportedPlatforms ->
        checkPlatforms env platforms !! p <> Some true
        /\ (p <> "__proto__" -> checkPlatforms env platforms !! p = Some false))
  /\ (forall w, World.env w = env ->
        checkSecrets Absent (Strings platforms) w
        = M.mkRun (mkResponse 200 (JsonFlags (checkPlatforms env platforms))) w []).
Proof.
  intros Hin. repeat split.
  - intros ->. rewrite checkPlatforms_supported; simpl; auto.
  - intros ->. rewrite checkPlatforms_supported; simpl; auto.
  - intros ->. rewrite checkPlatforms_supported; simpl; auto.
  - rewrite checkPlatforms_other by assumption. apply initFlags_never_true.
  - intros Hp. rewrite checkPlatforms_other by assumption. now apply initFlags_In.
  - intros w <-. reflexivity.
Qed.

Lemma checkPlatforms_report_witness :
  checkPlatforms Example.envYoutube ["youtube"; "instagram"; "vimeo"] !! "youtube" = Some true
  /\ checkPlatforms Example.envYoutube ["youtube"; "instagram"; "vimeo"] !! "instagram"
     = Some false
  /\ checkPlatforms Example.envYoutube ["youtube"; "instagram"; "vimeo"] !! "vimeo"
     = Some false.
Proof.
  split; [|split].
  - refine (proj1 (checkPlatforms_report Example.envYoutube
                     ["youtube"; "instagram"; "vimeo"] "youtube" _) eq_refl).
    simpl. tauto.
  - vm_compute. reflexivity.
  - vm_compute. reflexivity.
Defined.

(** C5 as stated fails for Instagram: with the access token alone the
    platform is reported as configured although neither its app
    identifier nor its app secret is set, and with both of these set but
    no token it is reported as not configured.  And a name outside the
    three platforms is not always given the flag [false]: the name
    [__proto__] is left out of the report. *)
Lemma checkPlatforms_instagram_by_token :
  (checkPlatforms Example.envInstagramToken ["instagram"] !! "instagram" = Some true
   /\ credentialsPresent Example.envInstagramToken "instagram" = false)
  /\ (checkPlatforms Example.envFacebookApp ["instagram"] !! "instagram" = Some false
      /\ credentialsPresent Example.envFacebookApp "instagram" = true)
  /\ checkPlatforms Example.envFacebookApp ["__proto__"] !! "__proto__" = None.
Proof. vm_compute. repeat split; reflexivity. Qed.

(** The service agrees with the route: [isPlatformConfigured] looks at
    the access token of Instagram too. *)
Lemma isPlatformConfigured_instagram env :
  SocialMediaService.isPlatformConfigured (SocialMediaService.construct env) "instagram"
  = truthy_str (env !! "INSTAGRAM_ACCESS_TOKEN").
Proof.
  unfold SocialMediaService.construct, SocialMediaService.loadConfig,
    SocialMediaService.isPlatformConfigured. simpl.
  assert (Hnone : SocialMediaAuthConfig.instagram
            (SocialMediaService.loadTiktok env
               (SocialMediaService.loadYoutube env SocialMediaAuthConfig.empty)) = None).
  { unfold SocialMediaService.loadTiktok, SocialMediaService.loadYoutube.
    repeat case_match; reflexivity. }
  unfold SocialMediaService.loadInstagram, SocialMediaService.nonEmpty.
  destruct (env !! "INSTAGRAM_ACCESS_TOKEN") as [tok|]; simpl.
  - destruct (String.eqb tok "") eqn:E; simpl; [now rewrite Hnone | now rewrite E].
  - now rewrite Hnone.
Qed.

End CheckSecrets.

(** ** Running a handler *)

(** Unfolds the monad, and nothing of the store or the service. *)
Ltac run_handler :=
  cbv beta iota delta
    [mbind M_bind M.bind mret M_ret M.ret M.get M.put M.record M.newDate
     M.result M.final M.calls
     MOps.storage MOps.modifyStorage MOps.config MOps.setConfig MOps.env MOps.host];
  cbn [app].

(** ** The social-media service *)

Section Service.
Import SocialMediaService.

Lemma loadTiktok_youtube env c :
  SocialMediaAuthConfig.youtube (loadTiktok env c) = SocialMediaAuthConfig.youtube c.
Proof. unfold loadTiktok. repeat case_match; reflexivity. Qed.

Lemma loadInstagram_youtube env c :
  SocialMediaAuthConfig.youtube (loadInstagram env c) = SocialMediaAuthConfig.youtube c.
Proof. unfold loadInstagram. repeat case_match; reflexivity. Qed.

Lemma loadYoutube_present env c :
  truthy_str (env !! "YOUTUBE_CLIENT_ID") && truthy_str (env !! "YOUTUBE_CLIENT_SECRET") = true ->
  is_Some (SocialMediaAuthConfig.youtube (loadYoutube env c)).
Proof.
  unfold loadYoutube, nonEmpty, truthy_str.
  destruct (env !! "YOUTUBE_CLIENT_ID") as [i|]; [|discriminate].
  destruct (env !! "YOUTUBE_CLIENT_SECRET") as [s|];
    [|rewrite andb_false_r; discriminate].
  intros ->. simpl. eauto.
Qed.

Lemma loadYoutube_keeps env c :
  is_Some (SocialMediaAuthConfig.youtube c) ->
  is_Some (SocialMediaAuthConfig.youtube (loadYoutube env c)).
Proof.
  intros [y Hy]. unfold loadYoutube.
  repeat case_match; simpl; rewrite ?Hy; eauto.
Qed.

Lemma setAccessToken_youtube c token :
  setAccessToken c "youtube" token =
  match SocialMediaAuthConfig.youtube c with
  | Some y =>
      (true,
       SocialMediaAuthConfig.mk
         (Some (YoutubeConfig.mk (YoutubeConfig.clientId y) (YoutubeConfig.clientSecret y)
                  (YoutubeConfig.refreshToken y) (Some token)))
         (SocialMediaAuthConfig.tiktok c) (SocialMediaAuthConfig.instagram c))
  | None => (false, c)
  end.
Proof. reflexivity. Qed.

Lemma setAccessToken_keeps c platform token :
  is_Some (SocialMediaAuthConfig.youtube c) ->
  is_Some (SocialMediaAuthConfig.youtube (snd (setAccessToken c platform token))).
Proof.
  intros [y Hy]. unfold setAccessToken.
  repeat case_match; simpl; rewrite ?Hy; eauto; congruence.
Qed.

(** While the process runs, the service has a YouTube entry whenever the
    environment holds both YouTube credentials. *)
Lemma reachable_youtube env c :
  reachable env c ->
  truthy_str (env !! "YOUTUBE_CLIENT_ID") && truthy_str (env !! "YOUTUBE_CLIENT_SECRET") = true ->
  is_Some (SocialMediaAuthConfig.youtube c).
Proof.
  intros Hr Henv. induction Hr as [|c Hc IH|c platform token Hc IH].
  - unfold construct, loadConfig.
    rewrite loadInstagram_youtube, loadTiktok_youtube. now apply loadYoutube_present.
  - unfold loadConfig.
    rewrite loadInstagram_youtube, loadTiktok_youtube. now apply loadYoutube_keeps.
  - now apply setAccessToken_keeps.
Qed.

(** The URL builder returns [null] or a non-empty string. *)
Lemma getAuthorizationUrl_truthy env c platform baseUrl u :
  getAuthorizationUrl env c platform baseUrl = Some u -> truthy_str (Some u) = true.
Proof.
  unfold getAuthorizationUrl. intros H.
  repeat case_match; try discriminate; injection H as <-; reflexivity.
Qed.

End Service.

(** Scenarios of the specification, run on the model. *)
Example scenario_youtube_url :
  let url := default "" (SocialMediaService.getAuthorizationUrl Example.envYoutube
                           (SocialMediaService.construct Example.envYoutube)
                           "youtube" (Some "app.example.com")) in
  includes url "client_id=client-id" = true
  /\ includes url
       ("redirect_uri="
        +:+ encodeURIComponent "https://app.example.com/api/auth/youtube/callback") = true
  /\ includes url "access_type=offline" = true.
Proof. vm_compute. repeat split; reflexivity. Qed.

Example scenario_token_unconfigured :
  SocialMediaService.setAccessToken (SocialMediaService.construct ∅) "youtube" "tok123"
  = (false, SocialMediaService.construct ∅).
Proof. reflexivity. Qed.

Example scenario_unknown_platform :
  SocialMediaService.isPlatformConfigured (SocialMediaService.construct Example.envYoutube)
    "vimeo" = false
  /\ SocialMediaService.getAuthorizationUrl Example.envYoutube
       (SocialMediaService.construct Example.envYoutube) "vimeo" (Some "app.example.com")
     = None.
Proof. split; reflexivity. Qed.

(** ** The authorization URL and the OAuth callback *)

Section OAuth.
Import Routes.

(** C8.  The endpoint reloads the configuration and asks the URL builder
    about the sanitized platform name and the host of the request.  When
    the builder returns [null] it answers 400 with a failure body; when
    the builder returns a URL it answers 200 with that URL as [authUrl].
    So the answer carries a URL exactly when the builder produced one. *)
Theorem authUrl_response (w : World.t) (platformParam : string)
    (hostHeader : option string) :
  let platform := sanitizeString platformParam in
  let baseUrl := if truthy_str hostHeader then default "" hostHeader else "localhost:5000" in
  let reloaded := SocialMediaService.loadConfig (World.env w) (World.config w) in
  let built := SocialMediaService.getAuthorizationUrl (World.env w) reloaded platform
                 (Some baseUrl) in
  let run := authUrl platformParam hostHeader w in
  M.calls run = [CallReloadConfig; CallGetAuthorizationUrl platform baseUrl]
  /\ M.final run = World.withConfig reloaded w
  /\ M.result run
     = match built with
       | None =>
           mkResponse 400
             (failure ("Platform " +:+ platform +:+ " is not configured or not supported"))
       | Some url => mkResponse 200 (Json (VObj [("authUrl", VStr url)]))
       end
  /\ (status (M.result run) = 200 <-> is_Some built).
Proof.
  intros platform baseUrl reloaded built run.
  assert (Hrun : run = M.mkRun
            (if negb (truthy_str built) then
               mkResponse 400
                 (failure ("Platform " +:+ platform +:+ " is not configured or not supported"))
             else mkResponse 200 (Json (VObj [("authUrl", VStr (default "" built))])))
            (World.withConfig reloaded w)
            [CallReloadConfig; CallGetAuthorizationUrl platform baseUrl]).
  { subst run. unfold authUrl, socialMediaService_reloadConfig,
      socialMediaService_getAuthorizationUrl.
    run_handler. fold platform baseUrl.
    destruct (negb (truthy_str built)) eqn:E; subst built reloaded;
      cbn [World.env World.config World.withConfig] in *; rewrite E; reflexivity. }
  rewrite Hrun. simpl. split; [reflexivity|]. split; [reflexivity|].
  destruct built as [url|] eqn:E.
  - rewrite (getAuthorizationUrl_truthy _ _ _ _ _ E). simpl.
    split; [reflexivity|]. split; eauto.
  - simpl. split; [reflexivity|]. split; [discriminate|]. intros [? ?]. discriminate.
Qed.

(** C6.  A callback whose [error] parameter is set (non-empty), or that
    has neither a code nor an error, is answered with a 400 failure page;
    the handler calls nothing on the service, [setAccessToken] in
    particular, and the process, with the token the service holds for
    YouTube, is as it was. *)
Theorem youtubeCallback_without_code (w : World.t) (query : value) :
  truthy (prop "error" query) = true
  \/ (truthy (prop "code" query) = false /\ truthy (prop "error" query) = false) ->
  let run := youtubeCallback query w in
  M.result run
  = mkResponse 400
      (Html (if truthy (prop "error" query)
             then youtubeConnectionFailed (prop "error" query)
             else invalidRequest))
  /\ isFailure (M.result run)
  /\ M.calls run = []
  /\ (forall platform token, ~ In (CallSetAccessToken platform token) (M.calls run))
  /\ M.final run = w
  /\ youtubeToken (World.config (M.final run)) = youtubeToken (World.config w).
Proof.
  intros H run. subst run. unfold youtubeCallback, isFailure.
  destruct H as [He|[Hc He]]; rewrite He; [|rewrite Hc]; simpl;
    (repeat split; try reflexivity; try lia; intros ? ? []).
Qed.

Lemma youtubeCallback_without_code_witness :
  M.result (youtubeCallback Example.queryDenied Example.world)
  = mkResponse 400 (Html (youtubeConnectionFailed (VStr "access_denied")))
  /\ M.final (youtubeCallback Example.queryDenied Example.world) = Example.world.
Proof.
  pose proof (youtubeCallback_without_code Example.world Example.queryDenied
                (or_introl eq_refl)) as H.
  split; [exact (proj1 H) | exact (proj1 (proj2 (proj2 (proj2 (proj2 H)))))].
Defined.

(** C7, as amended.  In a running process, a callback that carries a
    code and no error is decided by the two YouTube credentials of the
    environment.  When one is missing the handler answers with the 500
    failure page, calls nothing and changes nothing.  When both are set it
    calls [setAccessToken('youtube', 'simulated_access_token')], after
    which the service holds that token for YouTube, and answers with the
    200 success page; the store is untouched. *)
Theorem youtubeCallback_with_code (w : World.t) (query : value) :
  reachable (World.env w) (World.config w) ->
  truthy (prop "code" query) = true ->
  truthy (prop "error" query) = false ->
  let run := youtubeCallback query w in
  if truthy_str (World.env w !! "YOUTUBE_CLIENT_ID")
     && truthy_str (World.env w !! "YOUTUBE_CLIENT_SECRET")
  then
    M.result run = mkResponse 200 (Html youtubeConnected)
    /\ M.calls run = [CallSetAccessToken "youtube" "simulated_access_token"]
    /\ youtubeToken (World.config (M.final run)) = Some "simulated_access_token"
    /\ M.final run
       = World.withConfig
           (snd (SocialMediaService.setAccessToken (World.config w) "youtube"
                   "simulated_access_token")) w
  else
    M.result run = mkResponse 500 (Html connectionError)
    /\ isFailure (M.result run)
    /\ M.calls run = []
    /\ M.final run = w.
Proof.
  intros Hreach Hcode Herror run. subst run.
  unfold youtubeCallback, socialMediaService_setAccessToken, isFailure.
  rewrite Herror, Hcode. cbn [negb]. run_handler.
  pose proof (reachable_youtube _ _ Hreach) as Hyoutube.
  destruct (truthy_str (World.env w !! "YOUTUBE_CLIENT_ID"));
    destruct (truthy_str (World.env w !! "YOUTUBE_CLIENT_SECRET"));
    cbv beta iota delta [negb orb andb];
    try (repeat split; try reflexivity; simpl; lia).
  destruct (Hyoutube eq_refl) as [y Hy].
  rewrite setAccessToken_youtube, Hy. unfold youtubeToken.
  repeat split; reflexivity.
Qed.

Lemma youtubeCallback_with_code_witness :
  M.result (youtubeCallback Example.queryCode Example.world)
  = mkResponse 200 (Html youtubeConnected)
  /\ youtubeToken (World.config (M.final (youtubeCallback Example.queryCode Example.world)))
     = Some "simulated_access_token".
Proof.
  pose proof (youtubeCallback_with_code Example.world Example.queryCode
                (reach_construct Example.envYoutube) eq_refl eq_refl) as H.
  vm_compute in H.
  split; [exact (proj1 H) | exact (proj1 (proj2 (proj2 H)))].
Defined.

(** C7 as stated fails when the callback carries an error next to the
    code: the handler stops at the error, does not look at the
    credentials (both are set here), stores no token and answers 400. *)
Lemma youtubeCallback_code_and_error :
  truthy (prop "code" Example.queryCodeAndError) = true
  /\ truthy_str (World.env Example.world !! "YOUTUBE_CLIENT_ID")
     && truthy_str (World.env Example.world !! "YOUTUBE_CLIENT_SECRET") = true
  /\ status (M.result (youtubeCallback Example.queryCodeAndError Example.world)) = 400
  /\ M.calls (youtubeCallback Example.queryCodeAndError Example.world) = []
  /\ youtubeToken (World.config
       (M.final (youtubeCallback Example.queryCodeAndError Example.world))) = None.
Proof. vm_compute. repeat split; reflexivity. Qed.

(** Why the statement is about running processes: [setAccessToken]
    stores nothing when the service has no YouTube entry, and the handler
    does not look at what it returns.  Such a configuration, next to an
    environment that holds both credentials, is one no process reaches. *)
Lemma youtubeCallback_needs_entry :
  let stale := World.withConfig SocialMediaAuthConfig.empty Example.world in
  M.result (youtubeCallback Example.queryCode stale) = mkResponse 200 (Html youtubeConnected)
  /\ youtubeToken (World.config (M.final (youtubeCallback Example.queryCode stale))) = None
  /\ ~ reachable (World.env stale) (World.config stale).
Proof.
  split; [vm_compute; reflexivity|]. split; [vm_compute; reflexivity|].
  intros H. apply reachable_youtube in H; [|vm_compute; reflexivity].
  destruct H as [y Hy]. discriminate.
Qed.

End OAuth.

(** ** The store *)

Section Store.
Import MemStorageState.

Lemma mapSet_In a m : In a (MemStorage.mapSet a m).
Proof.
  induction m as [|b m IH]; simpl; [now left|].
  destruct (Activity.id b =? Activity.id a); simpl; auto.
Qed.

Lemma mapSet_elements x a m : In x (MemStorage.mapSet a m) -> x = a \/ In x m.
Proof.
  induction m as [|b m IH]; simpl.
  - intros [<-|[]]. now left.
  - destruct (Activity.id b =? Activity.id a); simpl.
    + intros [<-|H]; auto.
    + intros [<-|H]; auto. destruct (IH H); auto.
Qed.

(** [createActivity] stores the activity under the next identifier,
    stamped with the next reading of the clock, and touches nothing else. *)
Lemma createActivity_run a w :
  MemStorage.createActivity a w =
  let st := World.storage w in
  let activity :=
    Activity.mk (activityIdCounter st)
      (MemStorage.numberOrNull (InsertActivity.videoId a))
      (InsertActivity.userId a) (InsertActivity.action a)
      (MemStorage.valueOrNull (InsertActivity.details a))
      (World.clock w (World.ticks w)) in
  M.mkRun activity
    (World.mk (World.env w) (World.host w) (World.clock w) (S (World.ticks w))
       (mk (videos st) (MemStorage.mapSet activity (activities st))
          (activityIdCounter st + 1))
       (World.config w))
    [].
Proof. reflexivity. Qed.

Lemma updateVideo_run id updateData video w :
  videos (World.storage w) !! id = Some video ->
  MemStorage.updateVideo id updateData w =
  let updatedVideo := VideoPatch.apply updateData video in
  let st := World.storage w in
  let w' :=
    World.withStorage
      (mk (<[id := updatedVideo]> (videos st)) (activities st) (activityIdCounter st)) w in
  M.mkRun (Some updatedVideo)
    (M.final (MemStorage.createActivity
                (InsertActivity.mk (Some id) (Video.userId video) "update_video"
                   (Some (VObj [("title", VStr (Video.title video))]))) w'))
    [].
Proof.
  intros H. unfold MemStorage.updateVideo. run_handler. rewrite H. reflexivity.
Qed.

Lemma updateVideo_missing id updateData w :
  videos (World.storage w) !! id = None ->
  MemStorage.updateVideo id updateData w = M.mkRun None w [].
Proof.
  intros H. unfold MemStorage.updateVideo. run_handler. rewrite H. reflexivity.
Qed.

End Store.

(** ** The publish handler *)

Section Publish.
Import Routes.

Lemma publish_invalid_id idParam reqBody w :
  parseInt (sanitizeString idParam) = None ->
  publish idParam reqBody w = M.mkRun (mkResponse 400 (message "Invalid video ID")) w [].
Proof. intros H. unfold publish. rewrite H. reflexivity. Qed.

Lemma publish_invalid_body idParam reqBody w id error :
  parseInt (sanitizeString idParam) = Some id ->
  validateRequest publishSchema reqBody = Invalid error ->
  publish idParam reqBody w = M.mkRun (mkResponse 400 (message error)) w [].
Proof. intros H1 H2. unfold publish. rewrite H1, H2. reflexivity. Qed.

Lemma publish_not_found idParam reqBody w id data :
  parseInt (sanitizeString idParam) = Some id ->
  validateRequest publishSchema reqBody = Valid data ->
  MemStorageState.videos (World.storage w) !! id = None ->
  publish idParam reqBody w
  = M.mkRun (mkResponse 404 (message "Video not found")) w [CallGetVideo id].
Proof.
  intros H1 H2 H3. unfold publish. rewrite H1, H2.
  unfold storage_getVideo, MemStorage.getVideo. run_handler. rewrite H3. reflexivity.
Qed.

Lemma publish_no_media idParam reqBody w id data video :
  parseInt (sanitizeString idParam) = Some id ->
  validateRequest publishSchema reqBody = Valid data ->
  MemStorageState.videos (World.storage w) !! id = Some video ->
  truthy_str (Video.videoUrl video) = false ->
  publish idParam reqBody w
  = M.mkRun
      (mkResponse 400 (message "Video has not been generated yet. Generate the video first."))
      w [CallGetVideo id].
Proof.
  intros H1 H2 H3 H4. unfold publish. rewrite H1, H2.
  unfold storage_getVideo, MemStorage.getVideo. run_handler. rewrite H3, H4. reflexivity.
Qed.

(** The run of the handler once the request is valid and the video has
    a media URL. *)
Lemma publish_fan_out idParam reqBody w id data video :
  parseInt (sanitizeString idParam) = Some id ->
  validateRequest publishSchema reqBody = Valid data ->
  MemStorageState.videos (World.storage w) !! id = Some video ->
  truthy_str (Video.videoUrl video) = true ->
  publish idParam reqBody w =
  let started := publishStarted video data in
  let w1 := M.final (MemStorage.createActivity started w) in
  let outcome :=
    SocialMediaService.publishVideo (World.host w) (World.config w) video (platforms data) in
  let called := [CallGetVideo id; CallCreateActivity started;
                 CallPublishVideo video (platforms data) outcome] in
  match outcome with
  | None =>
      M.mkRun
        (mkResponse 500 (failure "An unexpected error occurred while publishing the video"))
        w1 called
  | Some results =>
      if existsb PublishResult.success results then
        let w2 := M.final (MemStorage.updateVideo id (VideoPatch.ofStatus "published") w1) in
        let w3 := M.final (MemStorage.createActivity (videoPublished video results) w2) in
        M.mkRun (mkResponse 200 (resultsBody results)) w3
          (called ++ [CallUpdateVideo id (VideoPatch.ofStatus "published");
                      CallCreateActivity (videoPublished video results)])
      else M.mkRun (mkResponse 200 (resultsBody results)) w1 called
  end.
Proof.
  intros H1 H2 H3 H4. unfold publish. rewrite H1, H2.
  unfold storage_getVideo, MemStorage.getVideo, storage_createActivity,
    socialMediaService_publishVideo, storage_updateVideo.
  run_handler. rewrite H3, H4. cbn [negb].
  rewrite createActivity_run. run_handler. cbn [World.host World.config].
  destruct (SocialMediaService.publishVideo _ _ _ _) as [results|]; [|reflexivity].
  destruct (existsb PublishResult.success results); [|reflexivity].
  cbv zeta.
  rewrite (updateVideo_run id (VideoPatch.ofStatus "published") video) by exact H3.
  reflexivity.
Qed.

(** A call of [publishVideo] in the run of the handler was made on a
    valid request, for the stored video, after its media URL was found. *)
Lemma publish_called idParam reqBody w video ps outcome :
  In (CallPublishVideo video ps outcome) (M.calls (publish idParam reqBody w)) ->
  exists id data,
    parseInt (sanitizeString idParam) = Some id
    /\ validateRequest publishSchema reqBody = Valid data
    /\ MemStorageState.videos (World.storage w) !! id = Some video
    /\ truthy_str (Video.videoUrl video) = true
    /\ ps = platforms data
    /\ outcome = SocialMediaService.publishVideo (World.host w) (World.config w) video ps.
Proof.
  destruct (parseInt (sanitizeString idParam)) as [id|] eqn:H1.
  2:{ rewrite publish_invalid_id by assumption. intros []. }
  destruct (validateRequest publishSchema reqBody) as [data|error] eqn:H2.
  2:{ rewrite (publish_invalid_body _ _ _ _ _ H1 H2). intros []. }
  destruct (MemStorageState.videos (World.storage w) !! id) as [found|] eqn:H3.
  2:{ rewrite (publish_not_found _ _ _ _ _ H1 H2 H3). intros [H|[]]. discriminate. }
  destruct (truthy_str (Video.videoUrl found)) eqn:H4.
  2:{ rewrite (publish_no_media _ _ _ _ _ _ H1 H2 H3 H4). intros [H|[]]. discriminate. }
  rewrite (publish_fan_out _ _ _ _ _ _ H1 H2 H3 H4). cbv zeta.
  intros Hin.
  assert (CallPublishVideo video ps outcome
          = CallPublishVideo found (platforms data)
              (SocialMediaService.publishVideo (World.host w) (World.config w) found
                 (platforms data))) as Heq.
  { destruct (SocialMediaService.publishVideo _ _ _ _) as [results|];
      [destruct (existsb PublishResult.success results)|];
      simpl in Hin;
      repeat match goal with
             | H : _ \/ _ |- _ => destruct H as [H|H]
             | H : False |- _ => destruct H
             end;
      try discriminate; symmetry; assumption. }
  injection Heq as -> -> ->. exists id, data. repeat split; assumption.
Qed.

End Publish.

Section PublishClaims.
Import Routes.

Lemma get_copyProps key props :
  String.eqb key "__proto__" = false ->
  JS.get key (copyProps props) = option_map sanitizeInput (JS.get key props).
Proof.
  intros Hkey. induction props as [|[k v] rest IH]; simpl; [reflexivity|].
  destruct (String.eqb k "__proto__") eqn:Ek.
  - apply String.eqb_eq in Ek. subst k.
    rewrite String.eqb_sym, Hkey. exact IH.
  - simpl. destruct (String.eqb k key); [reflexivity | exact IH].
Qed.

Lemma validateRequest_empty_platforms props :
  JS.get "platforms" props = Some (VArr []) ->
  validateRequest publishSchema (VObj props)
  = Invalid (Zod.fromZodError
               [Zod.TooSmall "At least one platform must be selected" [Zod.Key "platforms"]]).
Proof.
  intros H. unfold validateRequest. rewrite sanitizeInput_object.
  unfold publishSchema. rewrite get_copyProps by reflexivity. rewrite H. reflexivity.
Qed.

Lemma succeeded_In results p :
  In p (succeeded results)
  <-> exists r, In r results /\ PublishResult.success r = true /\ PublishResult.platform r = p.
Proof.
  unfold succeeded. rewrite in_map_iff. split.
  - intros (r & <- & Hr). apply filter_In in Hr as [Hr Hs]. eauto.
  - intros (r & Hr & Hs & <-). exists r. split; [reflexivity|]. now apply filter_In.
Qed.

(** Once the service returned its results the answer is 200 with them. *)
Lemma publish_response_of_results w idParam reqBody video ps results :
  In (CallPublishVideo video ps (Some results)) (M.calls (publish idParam reqBody w)) ->
  M.result (publish idParam reqBody w) = mkResponse 200 (resultsBody results).
Proof.
  intros Hin.
  destruct (publish_called _ _ _ _ _ _ Hin) as (id & data & H1 & H2 & H3 & H4 & -> & Hout).
  rewrite (publish_fan_out _ _ _ _ _ _ H1 H2 H3 H4). cbv zeta. rewrite <- Hout.
  destruct (existsb PublishResult.success results); reflexivity.
Qed.

(** C1, as amended.  For a publish request that passes validation (the
    id parses and the body is valid): when no video has that id the
    handler answers 404 [Video not found], and when the video has no media
    URL it answers 400.  In both cases the only call it made is the lookup
    of the video (no publish was attempted) and the process is as it was. *)
Theorem publish_missing_video_or_media (w : World.t) (idParam : string) (reqBody : value)
    (id : Z) (data : PublishData) :
  parseInt (sanitizeString idParam) = Some id ->
  validateRequest publishSchema reqBody = Valid data ->
  let run := publish idParam reqBody w in
  match MemStorageState.videos (World.storage w) !! id with
  | None =>
      M.result run = mkResponse 404 (message "Video not found")
      /\ M.calls run = [CallGetVideo id]
      /\ M.final run = w
  | Some video =>
      truthy_str (Video.videoUrl video) = false ->
      M.result run
      = mkResponse 400 (message "Video has not been generated yet. Generate the video first.")
      /\ M.calls run = [CallGetVideo id]
      /\ M.final run = w
  end.
Proof.
  intros H1 H2 run. subst run.
  destruct (MemStorageState.videos (World.storage w) !! id) as [video|] eqn:H3.
  - intros H4. rewrite (publish_no_media _ _ _ _ _ _ H1 H2 H3 H4). auto.
  - rewrite (publish_not_found _ _ _ _ _ H1 H2 H3). auto.
Qed.

Lemma publish_missing_video_or_media_witness :
  M.result (publish "7" (Example.bodyOf ["youtube"]) Example.world)
  = mkResponse 404 (message "Video not found")
  /\ M.final (publish "2" (Example.bodyOf ["tiktok"]) Example.world) = Example.world.
Proof.
  split.
  - exact (proj1 (publish_missing_video_or_media Example.world "7"
                    (Example.bodyOf ["youtube"]) 7 (mkPublishData ["youtube"])
                    eq_refl eq_refl)).
  - exact (proj2 (proj2 (publish_missing_video_or_media Example.world "2"
                           (Example.bodyOf ["tiktok"]) 2 (mkPublishData ["tiktok"])
                           eq_refl eq_refl eq_refl))).
Defined.

(** C1 as stated fails for a request with an empty platform list: no
    video has the id 7, and the answer is the 400 of the validation, not
    404. *)
Lemma publish_validation_before_lookup :
  parseInt (sanitizeString "7") = Some 7
  /\ MemStorageState.videos (World.storage Example.world) !! 7 = None
  /\ M.result (publish "7" (Example.bodyOf []) Example.world)
     = mkResponse 400
         (message (Zod.fromZodError
                     [Zod.TooSmall "At least one platform must be selected"
                        [Zod.Key "platforms"]]))
  /\ status (M.result (publish "7" (Example.bodyOf []) Example.world)) <> 404.
Proof. vm_compute. repeat split; try reflexivity. discriminate. Qed.

(** C2.  Whenever the handler called [publishVideo] and the service
    returned a list of results, the handler answers 200 with that list as
    [results], whatever the success flags of the results are (all of them
    may be failures); the request was then valid, for a stored video with
    a media URL.  Said from the request: for a valid request on a stored
    video with a media URL, if [publishVideo] returns a list the answer is
    200 with that list. *)
Theorem publish_answers_200 :
  (forall (w : World.t) (idParam : string) (reqBody : value) (video : Video.t)
     (ps : list string) (results : list PublishResult.t),
     In (CallPublishVideo video ps (Some results)) (M.calls (publish idParam reqBody w)) ->
     M.result (publish idParam reqBody w) = mkResponse 200 (resultsBody results)
     /\ exists id,
          parseInt (sanitizeString idParam) = Some id
          /\ MemStorageState.videos (World.storage w) !! id = Some video
          /\ truthy_str (Video.videoUrl video) = true)
  /\ (forall (w : World.t) (idParam : string) (reqBody : value) (id : Z)
        (data : PublishData) (video : Video.t) (results : list PublishResult.t),
        parseInt (sanitizeString idParam) = Some id ->
        validateRequest publishSchema reqBody = Valid data ->
        MemStorageState.videos (World.storage w) !! id = Some video ->
        truthy_str (Video.videoUrl video) = true ->
        SocialMediaService.publishVideo (World.host w) (World.config w) video (platforms data)
        = Some results ->
        M.result (publish idParam reqBody w) = mkResponse 200 (resultsBody results)
        /\ In (CallPublishVideo video (platforms data) (Some results))
             (M.calls (publish idParam reqBody w))).
Proof.
  split.
  - intros w idParam reqBody video ps results Hin.
    split; [now apply (publish_response_of_results _ _ _ video ps)|].
    destruct (publish_called _ _ _ _ _ _ Hin) as (id & data & H1 & H2 & H3 & H4 & _).
    eauto.
  - intros w idParam reqBody id data video results H1 H2 H3 H4 Hres.
    rewrite (publish_fan_out _ _ _ _ _ _ H1 H2 H3 H4). cbv zeta. rewrite Hres.
    destruct (existsb PublishResult.success results); simpl; tauto.
Qed.

Lemma publish_answers_200_witness :
  In (CallPublishVideo Example.video ["youtube"; "tiktok"]
        (Some [Example.youtubeDenied; Example.tiktokDenied]))
     (M.calls (publish "1" (Example.bodyOf ["youtube"; "tiktok"]) Example.world))
  /\ M.result (publish "1" (Example.bodyOf ["youtube"; "tiktok"]) Example.world)
     = mkResponse 200 (resultsBody [Example.youtubeDenied; Example.tiktokDenied]).
Proof.
  assert (H : In (CallPublishVideo Example.video ["youtube"; "tiktok"]
                    (Some [Example.youtubeDenied; Example.tiktokDenied]))
                 (M.calls (publish "1" (Example.bodyOf ["youtube"; "tiktok"]) Example.world))).
  { exact (proj2 (proj2 publish_answers_200 Example.world "1"
                    (Example.bodyOf ["youtube"; "tiktok"]) 1
                    (mkPublishData ["youtube"; "tiktok"]) Example.video
                    [Example.youtubeDenied; Example.tiktokDenied]
                    eq_refl eq_refl eq_refl eq_refl eq_refl)). }
  split; [exact H|].
  exact (proj1 (proj1 publish_answers_200 _ _ _ _ _ _ H)).
Defined.

(** C3.  After the fan-out returned its results: if at least one result
    succeeded, the stored video is the old one with status [published],
    and an activity [video_published] of the owner is recorded whose
    [platforms] are exactly the platforms of the succeeding results; if
    none succeeded, the videos are unchanged, no update is made and no
    [video_published] activity is added. *)
Theorem publish_records_outcome (w : World.t) (idParam : string) (reqBody : value)
    (video : Video.t) (ps : list string) (results : list PublishResult.t) :
  In (CallPublishVideo video ps (Some results)) (M.calls (publish idParam reqBody w)) ->
  let run := publish idParam reqBody w in
  let before := World.storage w in
  let after := World.storage (M.final run) in
  exists id,
    parseInt (sanitizeString idParam) = Some id
    /\ MemStorageState.videos before !! id = Some video
    /\ (forall p, In p (succeeded results)
                  <-> exists r, In r results /\ PublishResult.success r = true
                                /\ PublishResult.platform r = p)
    /\ if existsb PublishResult.success results then
         MemStorageState.videos after
         = <[id := withStatus "published" video]> (MemStorageState.videos before)
         /\ In (CallUpdateVideo id (VideoPatch.ofStatus "published")) (M.calls run)
         /\ exists a,
              In a (MemStorageState.activities after)
              /\ Activity.action a = "video_published"
              /\ Activity.userId a = Video.userId video
              /\ Activity.details a = InsertActivity.details (videoPublished video results)
              /\ option_map (prop "platforms") (Activity.details a)
                 = Some (VArr (map VStr (succeeded results)))
       else
         MemStorageState.videos after = MemStorageState.videos before
         /\ (forall id' updateData, ~ In (CallUpdateVideo id' updateData) (M.calls run))
         /\ (forall a, In a (MemStorageState.activities after) ->
                       Activity.action a = "video_published" ->
                       In a (MemStorageState.activities before)).
Proof.
  intros Hin run before after. subst run before after.
  destruct (publish_called _ _ _ _ _ _ Hin) as (id & data & H1 & H2 & H3 & H4 & -> & Hout).
  exists id. split; [exact H1|]. split; [exact H3|]. split; [apply succeeded_In|].
  rewrite (publish_fan_out _ _ _ _ _ _ H1 H2 H3 H4). cbv zeta. rewrite <- Hout.
  destruct (existsb PublishResult.success results).
  - rewrite (updateVideo_run id (VideoPatch.ofStatus "published") video) by exact H3.
    cbv zeta. rewrite !createActivity_run. cbn -[MemStorage.mapSet succeeded join].
    split; [reflexivity|]. split; [tauto|].
    eexists. split; [apply mapSet_In|]. cbn -[succeeded join]. repeat split.
  - rewrite createActivity_run. cbn -[MemStorage.mapSet join].
    split; [reflexivity|]. split.
    + intros id' updateData [H|[H|[H|[]]]]; discriminate.
    + intros a Ha Haction. apply mapSet_elements in Ha as [->|Ha]; [|exact Ha].
      discriminate.
Qed.

Lemma publish_records_outcome_witness :
  In (CallPublishVideo Example.video ["youtube"; "tiktok"]
        (Some [Example.youtubeOk; Example.tiktokDenied]))
     (M.calls (publish "1" (Example.bodyOf ["youtube"; "tiktok"]) Example.authorized))
  /\ MemStorageState.videos
       (World.storage
          (M.final (publish "1" (Example.bodyOf ["youtube"; "tiktok"]) Example.authorized)))
     !! 1 = Some (withStatus "published" Example.video).
Proof.
  assert (H : In (CallPublishVideo Example.video ["youtube"; "tiktok"]
                    (Some [Example.youtubeOk; Example.tiktokDenied]))
                 (M.calls (publish "1" (Example.bodyOf ["youtube"; "tiktok"])
                             Example.authorized))).
  { vm_compute. right. right. left. reflexivity. }
  split; [exact H|].
  destruct (publish_records_outcome _ _ _ _ _ _ H) as (id & Hid & _ & _ & Hrest).
  assert (id = 1) as -> by (vm_compute in Hid; congruence).
  cbn [existsb PublishResult.success Example.youtubeOk orb] in Hrest.
  destruct Hrest as (-> & _). apply lookup_insert_eq.
Defined.

(** C4.  A publish request whose [platforms] list is empty is answered
    with a 400 that carries a validation message, before the video is
    looked up and before the service is called: the handler makes no call
    and changes nothing.  Failures of single platforms are not failures of
    the request: once the service was called and the media URL of the
    video parses, the answer is 200 with one result for each requested
    platform when the media file exists (one [all] result when it does
    not), for whatever platforms were named and whatever tokens the
    service holds. *)
Theorem publish_request_and_platform_errors :
  (forall (w : World.t) (idParam : string) (props : list (string * value)),
     JS.get "platforms" props = Some (VArr []) ->
     let run := publish idParam (VObj props) w in
     M.result run
     = mkResponse 400
         (message
            match parseInt (sanitizeString idParam) with
            | None => "Invalid video ID"
            | Some _ =>
                Zod.fromZodError
                  [Zod.TooSmall "At least one platform must be selected"
                     [Zod.Key "platforms"]]
            end)
     /\ M.calls run = []
     /\ M.final run = w)
  /\ (forall (w : World.t) (idParam : string) (reqBody : value) (video : Video.t)
        (ps : list string) (outcome : option (list PublishResult.t)),
        In (CallPublishVideo video ps outcome) (M.calls (publish idParam reqBody w)) ->
        (forall url, Video.videoUrl video = Some url ->
                     Host.urlPathname (World.host w) url <> None) ->
        exists results,
          outcome = Some results
          /\ M.result (publish idParam reqBody w) = mkResponse 200 (resultsBody results)
          /\ (length results = length ps
              \/ exists r, results = [r] /\ PublishResult.platform r = "all")).
Proof.
  split.
  - intros w idParam props Hempty run. subst run.
    destruct (parseInt (sanitizeString idParam)) as [id|] eqn:H1.
    + rewrite (publish_invalid_body _ _ _ _ _ H1 (validateRequest_empty_platforms _ Hempty)).
      auto.
    + rewrite (publish_invalid_id _ _ _ H1). auto.
  - intros w idParam reqBody video ps outcome Hin Hurl.
    destruct (publish_called _ _ _ _ _ _ Hin) as (id & data & H1 & H2 & H3 & H4 & -> & Hout).
    assert (exists results,
              SocialMediaService.publishVideo (World.host w) (World.config w) video
                (platforms data) = Some results
              /\ (length results = length (platforms data)
                  \/ exists r, results = [r] /\ PublishResult.platform r = "all"))
      as (results & Hres & Hshape).
    { unfold SocialMediaService.publishVideo.
      destruct (Video.videoUrl video) as [url|] eqn:Eu; [|discriminate].
      specialize (Hurl url eq_refl).
      destruct (SocialMediaService.nonEmpty url); [|eauto 6].
      destruct (Host.urlPathname (World.host w) url) as [path|]; [|contradiction].
      destruct (Host.fsAccess _ _); eexists; (split; [reflexivity|]).
      - left. apply length_map.
      - right. eauto. }
    exists results. rewrite Hout, Hres. split; [reflexivity|]. split; [|exact Hshape].
    apply (publish_response_of_results w idParam reqBody video (platforms data) results).
    now rewrite <- Hres, <- Hout.
Qed.

Lemma publish_request_and_platform_errors_witness :
  (JS.get "platforms" [("platforms", VArr [])] = Some (VArr [])
   /\ M.result (publish "1" (Example.bodyOf []) Example.authorized)
      = mkResponse 400
          (message (Zod.fromZodError
                      [Zod.TooSmall "At least one platform must be selected"
                         [Zod.Key "platforms"]]))
   /\ M.calls (publish "1" (Example.bodyOf []) Example.authorized) = [])
  /\ (In (CallPublishVideo Example.video ["youtube"; "vimeo"]
            (SocialMediaService.publishVideo Example.host (World.config Example.bare)
               Example.video ["youtube"; "vimeo"]))
         (M.calls (publish "1" (Example.bodyOf ["youtube"; "vimeo"]) Example.bare))
      /\ status (M.result (publish "1" (Example.bodyOf ["youtube"; "vimeo"]) Example.bare))
         = 200).
Proof.
  split.
  - split; [reflexivity|].
    pose proof (proj1 publish_request_and_platform_errors Example.authorized "1"
                  [("platforms", VArr [])] eq_refl) as H.
    split; [exact (proj1 H) | exact (proj1 (proj2 H))].
  - assert (H : In (CallPublishVideo Example.video ["youtube"; "vimeo"]
                      (SocialMediaService.publishVideo Example.host
                         (World.config Example.bare) Example.video ["youtube"; "vimeo"]))
                   (M.calls (publish "1" (Example.bodyOf ["youtube"; "vimeo"]) Example.bare))).
    { vm_compute. right. right. left. reflexivity. }
    split; [exact H|].
    destruct (proj2 publish_request_and_platform_errors _ _ _ _ _ _ H)
      as (results & _ & -> & _); [|reflexivity].
    intros url [= <-]. vm_compute. discriminate.
Defined.

End PublishClaims.

(** * Further properties *)

(** ** Sanitizing a parameter does not change the number it parses to *)

Section ParseIntPhases.

Lemma parseInt_phases s :
  parseInt s =
  let '(negative, s2) := splitSign (skipSpace s) in
  let '(radix, s3) := splitRadix s2 in
  match digits radix s3 0 false with
  | Some n => Some (if negative then - n else n)
  | None => None
  end.
Proof.
  unfold parseInt.
  assert (Hsign : forall s1,
            match s1 with
            | String "-" rest => (true, rest)
            | String "+" rest => (false, rest)
            | _ => (false, s1)
            end = splitSign s1).
  { intros [|a rest]; [reflexivity|].
    destruct a as [[] [] [] [] [] [] [] []]; reflexivity. }
  assert (Hradix : forall s2,
            match s2 with
            | String "0" (String "x" rest) => (16, rest)
            | String "0" (String "X" rest) => (16, rest)
            | _ => (10, s2)
            end = splitRadix s2).
  { intros [|a [|b rest]]; [reflexivity| |].
    - destruct a as [[] [] [] [] [] [] [] []]; reflexivity.
    - destruct a as [[] [] [] [] [] [] [] []]; try reflexivity.
      destruct b as [[] [] [] [] [] [] [] []]; reflexivity. }
  rewrite Hsign. destruct (splitSign (skipSpace s)) as [negative s2].
  rewrite Hradix. reflexivity.
Qed.

(** One pass [s.replace(/c/g, r)] whose character [c] and whose
    replacement text (it starts with [a]) mean nothing to [parseInt]. *)
Context (c a : ascii) (r' : string).
Let r := String a r'.
Hypothesis c_space : isSpace c = false.
Hypothesis c_minus : Ascii.eqb c "-" = false.
Hypothesis c_plus : Ascii.eqb c "+" = false.
Hypothesis c_zero : Ascii.eqb c "0" = false.
Hypothesis c_x : Ascii.eqb c "x" || Ascii.eqb c "X" = false.
Hypothesis c_digit : forall radix, digitValue radix c = None.
Hypothesis a_space : isSpace a = false.
Hypothesis a_minus : Ascii.eqb a "-" = false.
Hypothesis a_plus : Ascii.eqb a "+" = false.
Hypothesis a_zero : Ascii.eqb a "0" = false.
Hypothesis a_x : Ascii.eqb a "x" || Ascii.eqb a "X" = false.
Hypothesis a_digit : forall radix, digitValue radix a = None.

Lemma skipSpace_replaceAll s :
  skipSpace (replaceAll c r s) = replaceAll c r (skipSpace s).
Proof.
  induction s as [|b s IH]; [reflexivity|]. simpl.
  destruct (Ascii.eqb b c) eqn:E.
  - apply Ascii.eqb_eq in E. subst b. rewrite c_space. simpl.
    rewrite a_space, Ascii.eqb_refl. reflexivity.
  - simpl. destruct (isSpace b); [exact IH|]. simpl. now rewrite E.
Qed.

Lemma splitSign_replaceAll s :
  splitSign (replaceAll c r s)
  = (fst (splitSign s), replaceAll c r (snd (splitSign s))).
Proof.
  destruct s as [|b s]; [reflexivity|]. simpl.
  destruct (Ascii.eqb b c) eqn:E.
  - apply Ascii.eqb_eq in E. subst b. simpl.
    rewrite a_minus, a_plus, c_minus, c_plus. simpl. now rewrite Ascii.eqb_refl.
  - simpl. destruct (Ascii.eqb b "-"); [reflexivity|].
    destruct (Ascii.eqb b "+"); [reflexivity|]. simpl. now rewrite E.
Qed.

Lemma splitRadix_replaceAll s :
  splitRadix (replaceAll c r s)
  = (fst (splitRadix s), replaceAll c r (snd (splitRadix s))).
Proof.
  destruct s as [|b1 [|b2 s]].
  - reflexivity.
  - simpl. destruct (Ascii.eqb b1 c) eqn:E1; simpl.
    + rewrite a_zero. now destruct (r' +:+ "").
    + rewrite ?E1. reflexivity.
  - simpl replaceAll. destruct (Ascii.eqb b1 c) eqn:E1.
    + apply Ascii.eqb_eq in E1. subst b1.
      change (r +:+ ?t) with (String a (r' +:+ t)).
      cbn [splitRadix]. rewrite a_zero, c_zero. cbn [andb fst snd replaceAll].
      rewrite Ascii.eqb_refl.
      change (r +:+ ?t) with (String a (r' +:+ t)).
      destruct (r' +:+ _); reflexivity.
    + destruct (Ascii.eqb b2 c) eqn:E2.
      * apply Ascii.eqb_eq in E2. subst b2.
        change (r +:+ ?t) with (String a (r' +:+ t)).
        cbn [splitRadix]. rewrite a_x, c_x, !andb_false_r. cbn [fst snd replaceAll].
        now rewrite E1, Ascii.eqb_refl.
      * cbn [splitRadix].
        destruct (Ascii.eqb b1 "0" && (Ascii.eqb b2 "x" || Ascii.eqb b2 "X"));
          cbn [fst snd replaceAll]; [reflexivity|]. now rewrite E1, E2.
Qed.

Lemma digits_replaceAll radix s acc seen :
  digits radix (replaceAll c r s) acc seen = digits radix s acc seen.
Proof.
  revert acc seen. induction s as [|b s IH]; intros acc seen; [reflexivity|].
  simpl. destruct (Ascii.eqb b c) eqn:E.
  - apply Ascii.eqb_eq in E. subst b. simpl. now rewrite a_digit, c_digit.
  - simpl. destruct (digitValue radix b); [apply IH | reflexivity].
Qed.

Lemma parseInt_replaceAll s : parseInt (replaceAll c r s) = parseInt s.
Proof.
  rewrite !parseInt_phases, skipSpace_replaceAll, splitSign_replaceAll.
  destruct (splitSign (skipSpace s)) as [negative s2]. cbn [fst snd].
  rewrite splitRadix_replaceAll.
  destruct (splitRadix s2) as [radix s3]. cbn [fst snd].
  now rewrite digits_replaceAll.
Qed.

End ParseIntPhases.

Section SanitizedParameters.

Ltac inert_pass := reflexivity.

Lemma parseInt_escapeString s : parseInt (escapeString s) = parseInt s.
Proof.
  unfold escapeString.
  rewrite (parseInt_replaceAll "/" "&" "#x2F;") by inert_pass.
  rewrite (parseInt_replaceAll "'" "&" "#x27;") by inert_pass.
  rewrite (parseInt_replaceAll dquote "&" "quot;") by inert_pass.
  rewrite (parseInt_replaceAll ">" "&" "gt;") by inert_pass.
  now rewrite (parseInt_replaceAll "<" "&" "lt;") by inert_pass.
Qed.

(** X1.  [parseInt(sanitizeInput(s))] is [parseInt(s)] for every route
    parameter [s]: the five replacements put a [&] where the number has
    ended anyway.  So a route answers [Invalid ... ID] exactly for the
    parameters that are not numbers, as if it did not sanitize them. *)
Theorem parseInt_sanitizeString (s : string) (w : World.t) :
  parseInt (Routes.sanitizeString s) = parseInt s
  /\ (M.result (VideoRoutes.getVideo s w)
      = VideoRoutes.Sent (Routes.mkResponse 400 (Routes.message "Invalid video ID"))
      <-> parseInt s = None).
Proof.
  assert (H : parseInt (Routes.sanitizeString s) = parseInt s)
    by apply parseInt_escapeString.
  split; [exact H|]. unfold VideoRoutes.getVideo. rewrite H.
  destruct (parseInt s) as [id|]; [|split; reflexivity].
  split; [|discriminate]. unfold MemStorage.getVideo. run_handler.
  destruct (_ !! id); discriminate.
Qed.

End SanitizedParameters.

(** ** What [sanitizeInput] leaves alone, and what [validateRequest] accepts *)

Section SanitizerShape.
Import Routes.

Lemma sanitizeInput_noProtoKey v : noProtoKey (sanitizeInput v) = true.
Proof.
  induction v as [ | | b | n | s | items IH | props IH ] using value_ind';
    try reflexivity.
  - simpl. induction IH as [|x xs Hx _ IHxs]; simpl; [reflexivity|].
    now rewrite Hx, IHxs.
  - rewrite sanitizeInput_object. simpl.
    induction IH as [|[k x] xs Hx _ IHxs]; simpl; [reflexivity|].
    destruct (String.eqb k "__proto__") eqn:E; simpl; [exact IHxs|].
    simpl in Hx. now rewrite E, Hx, IHxs.
Qed.

Lemma sanitizeInput_unchanged v :
  allStrings cleanString v = true -> noProtoKey v = true -> sanitizeInput v = v.
Proof.
  induction v as [ | | b | n | s | items IH | props IH ] using value_ind';
    try reflexivity.
  - simpl. intros H _. now rewrite escapeString_fixed.
  - simpl. intros Hc Hp. f_equal.
    induction IH as [|x xs Hx _ IHxs]; simpl in *; [reflexivity|].
    apply andb_true_iff in Hc as [Hc1 Hc2]. apply andb_true_iff in Hp as [Hp1 Hp2].
    now rewrite Hx, IHxs.
  - rewrite sanitizeInput_object. simpl. intros Hc Hp. f_equal.
    induction IH as [|[k x] xs Hx _ IHxs]; simpl in *; [reflexivity|].
    apply andb_true_iff in Hc as [Hc1 Hc2]. apply andb_true_iff in Hp as [Hp1 Hp2].
    apply andb_true_iff in Hp1 as [Hk Hp1]. apply negb_true_iff in Hk.
    now rewrite Hk, Hx, IHxs.
Qed.

(** X2.  The values [sanitizeInput] returns unchanged are exactly those
    whose strings hold none of the five characters and whose objects have
    no property named [__proto__]; and no object of its output has such a
    property. *)
Theorem sanitizeInput_fixed_points (v : value) :
  (sanitizeInput v = v <-> allStrings cleanString v = true /\ noProtoKey v = true)
  /\ noProtoKey (sanitizeInput v) = true.
Proof.
  split; [|apply sanitizeInput_noProtoKey]. split.
  - intros H. rewrite <- H. split; [apply sanitizeInput_clean | apply sanitizeInput_noProtoKey].
  - intros [Hc Hp]. now apply sanitizeInput_unchanged.
Qed.

Lemma parseStrings_strings path i names :
  Zod.parseStrings path i (map VStr names) = ([], names).
Proof.
  revert i. induction names as [|s names IH]; intros i; simpl; [reflexivity|].
  now rewrite IH.
Qed.

Lemma parseStrings_no_issue path i items :
  fst (Zod.parseStrings path i items) = [] ->
  items = map VStr (snd (Zod.parseStrings path i items)).
Proof.
  revert i. induction items as [|item items IH]; intros i; simpl; [reflexivity|].
  specialize (IH (S i)). destruct (Zod.parseStrings path (S i) items) as [issues strings].
  destruct item; simpl; try discriminate.
  intros H. simpl in IH. now rewrite <- IH.
Qed.

Lemma sanitizeInput_strings items strings :
  map sanitizeInput items = map VStr strings ->
  exists names, items = map VStr names /\ strings = map escapeString names.
Proof.
  revert strings. induction items as [|item items IH]; intros [|t strings] H;
    try discriminate.
  - exists []. split; reflexivity.
  - simpl in H. injection H as Hitem Hrest.
    destruct (IH _ Hrest) as (names & -> & ->).
    destruct item; try discriminate. simpl in Hitem. injection Hitem as <-.
    exists (s :: names). split; reflexivity.
Qed.

(** X4.  For a body with no [__proto__] property, [validateRequest]
    accepts it as a publish request exactly when it is an object whose
    [platforms] property is a non-empty array of strings; the accepted
    data are those strings, each one escaped, and nothing else of the
    body. *)
Theorem validateRequest_publishSchema_valid (reqBody : value) (data : PublishData) :
  noProtoKey reqBody = true ->
  validateRequest publishSchema reqBody = Valid data
  <-> exists props names,
        reqBody = VObj props
        /\ JS.get "platforms" props = Some (VArr (map VStr names))
        /\ names <> []
        /\ data = mkPublishData (map escapeString names).
Proof.
  intros _. split.
  - unfold validateRequest.
    destruct reqBody as [ | | b | n | s | items | props ]; try discriminate.
    rewrite sanitizeInput_object. unfold publishSchema.
    rewrite get_copyProps by reflexivity.
    destruct (JS.get "platforms" props) as [pv|] eqn:Hget; [|discriminate].
    destruct pv as [ | | b | n | s | items | ps ]; try discriminate.
    simpl option_map. cbn [of_option sanitizeInput].
    pose proof (parseStrings_no_issue [Zod.Key "platforms"] 0%nat (map sanitizeInput items))
      as Hitems.
    destruct (Zod.parseStrings [Zod.Key "platforms"] 0 (map sanitizeInput items))
      as [issues strings].
    cbn [fst snd] in Hitems.
    destruct (length (map sanitizeInput items) <? 1)%nat eqn:Hlen; [discriminate|].
    destruct issues as [|issue issues]; [|discriminate].
    cbn [app]. intros [= <-].
    destruct (sanitizeInput_strings _ _ (Hitems eq_refl)) as (names & -> & ->).
    exists props, names. split; [reflexivity|]. split; [exact Hget|].
    split; [|reflexivity]. intros ->. discriminate.
  - intros (props & names & -> & Hget & Hne & ->).
    unfold validateRequest. rewrite sanitizeInput_object. unfold publishSchema.
    rewrite get_copyProps by reflexivity. rewrite Hget.
    simpl option_map. cbn [of_option sanitizeInput].
    rewrite map_map.
    change (fun x => sanitizeInput (VStr x)) with (fun x => VStr (escapeString x)).
    rewrite <- (map_map escapeString VStr), parseStrings_strings.
    destruct names as [|name names]; [contradiction|]. reflexivity.
Qed.

Lemma validateRequest_publishSchema_valid_witness :
  noProtoKey (VObj [("platforms", VArr [VStr "youtube"; VStr "a/b"]); ("extra", VNum 1)]) = true
  /\ validateRequest publishSchema
       (VObj [("platforms", VArr [VStr "youtube"; VStr "a/b"]); ("extra", VNum 1)])
     = Valid (mkPublishData ["youtube"; "a&#x2F;b"]).
Proof.
  split; [reflexivity|].
  apply (validateRequest_publishSchema_valid
           (VObj [("platforms", VArr [VStr "youtube"; VStr "a/b"]); ("extra", VNum 1)])
           (mkPublishData ["youtube"; "a&#x2F;b"]) eq_refl).
  exists [("platforms", VArr [VStr "youtube"; VStr "a/b"]); ("extra", VNum 1)],
    ["youtube"; "a/b"].
  repeat split; discriminate.
Defined.

End SanitizerShape.

(** ** The service: configuration, tokens and URLs *)

Section ServiceConfiguration.
Import SocialMediaService.

Lemma toLowerCase_fixed_names :
  toLowerCase "youtube" = "youtube" /\ toLowerCase "tiktok" = "tiktok"
  /\ toLowerCase "instagram" = "instagram".
Proof. repeat split; reflexivity. Qed.

(** X5.  Reloading the configuration twice is reloading it once. *)
Theorem loadConfig_idempotent (env : gmap string string) (c : SocialMediaAuthConfig.t) :
  loadConfig env (loadConfig env c) = loadConfig env c.
Proof.
  unfold loadConfig, loadInstagram, loadTiktok, loadYoutube.
  destruct (env !! "YOUTUBE_CLIENT_ID") as [yid|];
    destruct (env !! "YOUTUBE_CLIENT_SECRET") as [ysec|];
    destruct (env !! "TIKTOK_CLIENT_KEY") as [tkey|];
    destruct (env !! "TIKTOK_CLIENT_SECRET") as [tsec|];
    destruct (env !! "INSTAGRAM_ACCESS_TOKEN") as [itok|];
    repeat match goal with
           | |- context [nonEmpty ?s] => destruct (nonEmpty s)
           end;
    reflexivity.
Qed.

Lemma loadConfig_youtube env c :
  SocialMediaAuthConfig.youtube (loadConfig env c)
  = SocialMediaAuthConfig.youtube (loadYoutube env c).
Proof. unfold loadConfig. now rewrite loadInstagram_youtube, loadTiktok_youtube. Qed.

Lemma loadConfig_tiktok env c :
  SocialMediaAuthConfig.tiktok (loadConfig env c)
  = SocialMediaAuthConfig.tiktok (loadTiktok env c).
Proof.
  unfold loadConfig, loadInstagram, loadTiktok, loadYoutube.
  repeat case_match; reflexivity.
Qed.

Lemma loadConfig_youtubeToken env c :
  truthy_str (env !! "YOUTUBE_CLIENT_ID") && truthy_str (env !! "YOUTUBE_CLIENT_SECRET") = true ->
  youtubeToken (loadConfig env c) = env !! "YOUTUBE_ACCESS_TOKEN".
Proof.
  intros H. unfold youtubeToken. rewrite loadConfig_youtube. unfold loadYoutube.
  unfold truthy_str in H.
  destruct (env !! "YOUTUBE_CLIENT_ID") as [yid|]; [|discriminate].
  destruct (env !! "YOUTUBE_CLIENT_SECRET") as [ysec|];
    [|rewrite andb_false_r in H; discriminate].
  unfold nonEmpty. now rewrite H.
Qed.

(** The entries of a configuration, where there are some, hold the
    credentials of the environment; loading then makes the configuration
    mirror the environment. *)
Lemma loadConfig_mirrorsEnv env c :
  match SocialMediaAuthConfig.youtube c with
  | Some y =>
      env !! "YOUTUBE_CLIENT_ID" = Some (YoutubeConfig.clientId y)
      /\ env !! "YOUTUBE_CLIENT_SECRET" = Some (YoutubeConfig.clientSecret y)
      /\ nonEmpty (YoutubeConfig.clientId y) = true
      /\ nonEmpty (YoutubeConfig.clientSecret y) = true
  | None => True
  end ->
  match SocialMediaAuthConfig.tiktok c with
  | Some k =>
      env !! "TIKTOK_CLIENT_KEY" = Some (TiktokConfig.clientKey k)
      /\ env !! "TIKTOK_CLIENT_SECRET" = Some (TiktokConfig.clientSecret k)
      /\ nonEmpty (TiktokConfig.clientKey k) = true
      /\ nonEmpty (TiktokConfig.clientSecret k) = true
  | None => True
  end ->
  mirrorsEnv env (loadConfig env c).
Proof.
  intros Hy Ht. unfold mirrorsEnv. rewrite loadConfig_youtube, loadConfig_tiktok. split.
  - clear Ht. unfold loadYoutube, truthy_str, nonEmpty in *.
    destruct (SocialMediaAuthConfig.youtube c) as [y|] eqn:Ey;
      destruct (env !! "YOUTUBE_CLIENT_ID") as [yid|];
      destruct (env !! "YOUTUBE_CLIENT_SECRET") as [ysec|];
      try (destruct Hy as (Hy1 & Hy2 & Hy3 & Hy4); simplify_eq);
      cbn [andb];
      repeat match goal with
             | |- context [negb (String.eqb ?s "")] =>
                 destruct (negb (String.eqb s "")) eqn:?
             end;
      cbn [andb SocialMediaAuthConfig.youtube] in *; rewrite ?Ey;
      try discriminate; auto using andb_false_r.
  - clear Hy. unfold loadTiktok, truthy_str, nonEmpty in *.
    destruct (SocialMediaAuthConfig.tiktok c) as [k|] eqn:Ek;
      destruct (env !! "TIKTOK_CLIENT_KEY") as [tkey|];
      destruct (env !! "TIKTOK_CLIENT_SECRET") as [tsec|];
      try (destruct Ht as (Ht1 & Ht2 & Ht3 & Ht4); simplify_eq);
      cbn [andb];
      repeat match goal with
             | |- context [negb (String.eqb ?s "")] =>
                 destruct (negb (String.eqb s "")) eqn:?
             end;
      cbn [andb SocialMediaAuthConfig.tiktok] in *; rewrite ?Ek;
      try discriminate; auto using andb_false_r.
Qed.

Lemma setAccessToken_mirrorsEnv env c platform token :
  mirrorsEnv env c -> mirrorsEnv env (snd (setAccessToken c platform token)).
Proof.
  unfold mirrorsEnv, setAccessToken. intros [Hy Ht].
  destruct (String.eqb (toLowerCase platform) "youtube");
    [destruct (SocialMediaAuthConfig.youtube c) as [y|] eqn:Ey; cbn; rewrite ?Ey; auto|].
  destruct (String.eqb (toLowerCase platform) "tiktok");
    [destruct (SocialMediaAuthConfig.tiktok c) as [k|] eqn:Ek; cbn; rewrite ?Ek; auto|].
  destruct (String.eqb (toLowerCase platform) "instagram"); cbn; auto.
Qed.

Lemma reachable_mirrorsEnv env c : reachable env c -> mirrorsEnv env c.
Proof.
  induction 1 as [|c Hc IH|c platform token Hc IH].
  - apply loadConfig_mirrorsEnv; exact I.
  - destruct IH as [Hy Ht]. apply loadConfig_mirrorsEnv.
    + destruct (SocialMediaAuthConfig.youtube c); [exact Hy | exact I].
    + destruct (SocialMediaAuthConfig.tiktok c); [exact Ht | exact I].
  - now apply setAccessToken_mirrorsEnv.
Qed.

Lemma isPlatformConfigured_lower c p :
  isPlatformConfigured c p =
  if String.eqb (toLowerCase p) "youtube" then isPlatformConfigured c "youtube"
  else if String.eqb (toLowerCase p) "tiktok" then isPlatformConfigured c "tiktok"
  else if String.eqb (toLowerCase p) "instagram" then isPlatformConfigured c "instagram"
  else false.
Proof.
  unfold isPlatformConfigured.
  change (toLowerCase "youtube") with "youtube".
  change (toLowerCase "tiktok") with "tiktok".
  change (toLowerCase "instagram") with "instagram".
  destruct (String.eqb (toLowerCase p) "youtube"); [reflexivity|].
  destruct (String.eqb (toLowerCase p) "tiktok"); [reflexivity|].
  destruct (String.eqb (toLowerCase p) "instagram"); reflexivity.
Qed.

(** X6.  In a running process the service takes YouTube (TikTok) as
    configured exactly when both credentials of that platform are set in
    the environment, whatever the case of the name it is asked about. *)
Theorem isPlatformConfigured_reachable (env : gmap string string)
    (c : SocialMediaAuthConfig.t) (p : string) :
  reachable env c ->
  toLowerCase p = "youtube" \/ toLowerCase p = "tiktok" ->
  isPlatformConfigured c p = credentialsPresent env (toLowerCase p).
Proof.
  intros Hr Hp. destruct (reachable_mirrorsEnv _ _ Hr) as [Hy Ht].
  rewrite isPlatformConfigured_lower.
  destruct Hp as [-> | ->]; cbn [String.eqb Ascii.eqb Bool.eqb];
    unfold isPlatformConfigured, credentialsPresent; cbn.
  - destruct (SocialMediaAuthConfig.youtube c) as [y|].
    + destruct Hy as (-> & -> & H1 & H2). unfold nonEmpty in *. cbn. now rewrite H1, H2.
    + now rewrite Hy.
  - destruct (SocialMediaAuthConfig.tiktok c) as [k|].
    + destruct Ht as (-> & -> & H1 & H2). unfold nonEmpty in *. cbn. now rewrite H1, H2.
    + now rewrite Ht.
Qed.

Lemma isPlatformConfigured_reachable_witness :
  isPlatformConfigured (World.config Example.authorized) "YouTube" = true
  /\ isPlatformConfigured (World.config Example.authorized) "TikTok" = false.
Proof.
  assert (Hr : reachable Example.envYoutube (World.config Example.authorized)).
  { apply reach_setAccessToken, reach_construct. }
  split.
  - rewrite (isPlatformConfigured_reachable _ _ "YouTube" Hr (or_introl eq_refl)).
    reflexivity.
  - rewrite (isPlatformConfigured_reachable _ _ "TikTok" Hr (or_intror eq_refl)).
    reflexivity.
Defined.

(** X7.  [getConfiguredPlatforms] lists the configured ones among
    [youtube], [tiktok], [instagram], in that order and once each; the
    route [GET /api/social-media/platforms] answers with that list and
    changes nothing. *)
Theorem getConfiguredPlatforms_listing (w : World.t) :
  let c := World.config w in
  getConfiguredPlatforms c = List.filter (isPlatformConfigured c) supportedPlatforms
  /\ (forall p, In p (getConfiguredPlatforms c)
                <-> In p supportedPlatforms /\ isPlatformConfigured c p = true)
  /\ NoDup (getConfiguredPlatforms c)
  /\ VideoRoutes.platforms w
     = M.mkRun
         (VideoRoutes.Sent
            (Routes.mkResponse 200
               (Routes.Json (VObj [("platforms",
                                    VArr (map VStr (getConfiguredPlatforms c)))]))))
         w [].
Proof.
  intros c.
  assert (Hfilter : getConfiguredPlatforms c
                    = List.filter (isPlatformConfigured c) supportedPlatforms).
  { unfold getConfiguredPlatforms, supportedPlatforms. cbn [List.filter].
    destruct (isPlatformConfigured c "youtube"), (isPlatformConfigured c "tiktok"),
      (isPlatformConfigured c "instagram"); reflexivity. }
  split; [exact Hfilter|]. split; [|split; [|reflexivity]].
  - intros p. rewrite Hfilter. apply filter_In.
  - rewrite Hfilter. apply NoDup_ListNoDup, List.NoDup_filter.
    unfold supportedPlatforms.
    repeat constructor; simpl; intuition discriminate.
Qed.

End ServiceConfiguration.

Section ServiceTokens.
Import SocialMediaService.

(** X8.  In a running process the URL builder returns a URL for YouTube
    or TikTok exactly when that platform is configured; for Instagram it
    returns one exactly when [FACEBOOK_APP_ID] is set, whether Instagram
    is configured or not; for any other name it returns [null]. *)
Theorem getAuthorizationUrl_available (env : gmap string string)
    (c : SocialMediaAuthConfig.t) (p : string) (baseUrl : option string) :
  reachable env c ->
  is_Some (getAuthorizationUrl env c p baseUrl)
  <-> if String.eqb (toLowerCase p) "instagram"
      then truthy_str (env !! "FACEBOOK_APP_ID") = true
      else isPlatformConfigured c p = true.
Proof.
  intros Hr. destruct (reachable_mirrorsEnv _ _ Hr) as [Hy Ht].
  unfold getAuthorizationUrl, isPlatformConfigured.
  destruct (String.eqb (toLowerCase p) "youtube") eqn:E1.
  { apply String.eqb_eq in E1. rewrite E1. cbn [String.eqb Ascii.eqb Bool.eqb].
    destruct (SocialMediaAuthConfig.youtube c) as [y|].
    - destruct Hy as (_ & _ & -> & ->). cbn. split; eauto.
    - split; [intros [? ?]|]; discriminate. }
  destruct (String.eqb (toLowerCase p) "tiktok") eqn:E2.
  { apply String.eqb_eq in E2. rewrite E2. cbn [String.eqb Ascii.eqb Bool.eqb].
    destruct (SocialMediaAuthConfig.tiktok c) as [k|].
    - destruct Ht as (_ & _ & -> & ->). cbn. split; eauto.
    - split; [intros [? ?]|]; discriminate. }
  destruct (String.eqb (toLowerCase p) "instagram") eqn:E3.
  - unfold truthy_str, nonEmpty.
    destruct (env !! "FACEBOOK_APP_ID") as [appId|];
      [destruct (negb (String.eqb appId ""))|];
      split; eauto; try discriminate; intros [? ?]; discriminate.
  - split; [intros [? ?]|]; discriminate.
Qed.

Lemma getAuthorizationUrl_available_witness :
  is_Some (getAuthorizationUrl Example.envYoutube (World.config Example.world)
             "YouTube" (Some "localhost:5000"))
  /\ getAuthorizationUrl Example.envYoutube (World.config Example.world)
       "instagram" (Some "localhost:5000") = None.
Proof.
  split.
  - apply (getAuthorizationUrl_available Example.envYoutube (World.config Example.world)
             "YouTube" (Some "localhost:5000") (reach_construct _)).
    reflexivity.
  - reflexivity.
Defined.

Lemma tokenOf_other_name c name :
  name <> "youtube" -> name <> "tiktok" -> name <> "instagram" -> tokenOf c name = None.
Proof.
  intros H1 H2 H3. unfold tokenOf.
  rewrite (proj2 (String.eqb_neq _ _) H1), (proj2 (String.eqb_neq _ _) H2),
    (proj2 (String.eqb_neq _ _) H3). reflexivity.
Qed.

(** X9.  [setAccessToken] either returns [false] and leaves the
    configuration as it was, or returns [true] and the service then holds
    the token under the lower-case name of the platform.  The tokens of
    the other platforms are never touched, nor is what counts as
    configured for YouTube and TikTok.  For Instagram it always returns
    [true], configured or not. *)
Theorem setAccessToken_effect (c : SocialMediaAuthConfig.t) (p token : string) :
  let ok := fst (setAccessToken c p token) in
  let c' := snd (setAccessToken c p token) in
  (ok = false -> c' = c)
  /\ (ok = true -> tokenOf c' (toLowerCase p) = Some token)
  /\ (forall name, name <> toLowerCase p -> tokenOf c' name = tokenOf c name)
  /\ (toLowerCase p = "instagram" -> ok = true)
  /\ isPlatformConfigured c' "youtube" = isPlatformConfigured c "youtube"
  /\ isPlatformConfigured c' "tiktok" = isPlatformConfigured c "tiktok".
Proof.
  unfold setAccessToken.
  destruct (String.eqb (toLowerCase p) "youtube") eqn:E1.
  { apply String.eqb_eq in E1. rewrite E1.
    destruct (SocialMediaAuthConfig.youtube c) as [y|] eqn:Ey; cbn [fst snd].
    - repeat split; try discriminate; try reflexivity.
      + intros name Hn. unfold tokenOf, youtubeToken. cbn.
        rewrite (proj2 (String.eqb_neq _ _) Hn). reflexivity.
      + unfold isPlatformConfigured. cbn. now rewrite Ey.
    - repeat split; try discriminate; reflexivity. }
  destruct (String.eqb (toLowerCase p) "tiktok") eqn:E2.
  { apply String.eqb_eq in E2. rewrite E2.
    destruct (SocialMediaAuthConfig.tiktok c) as [k|] eqn:Ek; cbn [fst snd].
    - repeat split; try discriminate; try reflexivity.
      + intros name Hn. unfold tokenOf, youtubeToken. cbn.
        destruct (String.eqb name "youtube"); [reflexivity|].
        rewrite (proj2 (String.eqb_neq _ _) Hn). reflexivity.
      + unfold isPlatformConfigured. cbn. now rewrite Ek.
    - repeat split; try discriminate; reflexivity. }
  destruct (String.eqb (toLowerCase p) "instagram") eqn:E3.
  { apply String.eqb_eq in E3. rewrite E3. cbn [fst snd].
    repeat split; try discriminate; try reflexivity.
    intros name Hn. unfold tokenOf, youtubeToken. cbn.
    destruct (String.eqb name "youtube"); [reflexivity|].
    destruct (String.eqb name "tiktok"); [reflexivity|].
    rewrite (proj2 (String.eqb_neq _ _) Hn). reflexivity. }
  cbn [fst snd]. repeat split; try discriminate; try reflexivity.
  intros H. rewrite H in E3. discriminate.
Qed.

(** What one adapter answers. *)
Lemma publishOne_outcome c video path p :
  let r := publishOne c video path p in
  PublishResult.success r = truthy_str (tokenOf c (toLowerCase p))
  /\ PublishResult.platform r = canonicalName p
  /\ (if PublishResult.success r
      then is_Some (PublishResult.url r) /\ PublishResult.error r = None
      else PublishResult.url r = None /\ is_Some (PublishResult.error r)).
Proof.
  unfold publishOne, canonicalName, supportedPlatforms. cbn [existsb].
  destruct (String.eqb (toLowerCase p) "youtube") eqn:E1.
  { apply String.eqb_eq in E1. rewrite E1. cbn [orb].
    unfold publishToYoutube, tokenOf, youtubeToken. cbn [String.eqb Ascii.eqb Bool.eqb].
    destruct (SocialMediaAuthConfig.youtube c) as [y|];
      [destruct (truthy_str (YoutubeConfig.accessToken y))|]; cbn; eauto. }
  destruct (String.eqb (toLowerCase p) "tiktok") eqn:E2.
  { apply String.eqb_eq in E2. rewrite E2. cbn [orb].
    unfold publishToTikTok, tokenOf. cbn [String.eqb Ascii.eqb Bool.eqb].
    destruct (SocialMediaAuthConfig.tiktok c) as [k|];
      [destruct (truthy_str (TiktokConfig.accessToken k))|]; cbn; eauto. }
  destruct (String.eqb (toLowerCase p) "instagram") eqn:E3.
  { apply String.eqb_eq in E3. rewrite E3. cbn [orb].
    unfold publishToInstagram, tokenOf. cbn [String.eqb Ascii.eqb Bool.eqb].
    destruct (SocialMediaAuthConfig.instagram c) as [i|];
      [destruct (truthy_str (InstagramConfig.accessToken i))|]; cbn; eauto. }
  cbn [orb]. unfold tokenOf. rewrite E1, E2, E3. cbn. eauto.
Qed.

(** X10.  Whatever the platform name, an adapter answers under the
    canonical name of the platform; its result succeeds exactly when the
    service holds a non-empty token for the platform, a result that
    succeeds carries a URL and no error, and one that fails carries an
    error and no URL.  A name that is none of the three platforms never
    succeeds. *)
Theorem publishOne_result (c : SocialMediaAuthConfig.t) (video : Video.t)
    (path p : string) :
  let r := publishOne c video path p in
  PublishResult.success r = truthy_str (tokenOf c (toLowerCase p))
  /\ PublishResult.platform r = canonicalName p
  /\ (PublishResult.success r = true <->
      is_Some (PublishResult.url r) /\ PublishResult.error r = None)
  /\ (PublishResult.success r = false <->
      PublishResult.url r = None /\ is_Some (PublishResult.error r))
  /\ (existsb (String.eqb (toLowerCase p)) supportedPlatforms = false ->
      PublishResult.success r = false).
Proof.
  intros r. destruct (publishOne_outcome c video path p) as (Hs & Hp & Hshape).
  fold r in Hs, Hp, Hshape.
  split; [exact Hs|]. split; [exact Hp|].
  destruct (PublishResult.success r) eqn:E.
  - destruct Hshape as [[u Hu] He]. rewrite Hu, He.
    repeat split; eauto; try discriminate.
    + intros [? [? ?]]. discriminate.
    + intros Hn. unfold supportedPlatforms in Hn. cbn [existsb] in Hn.
      rewrite tokenOf_other_name in Hs; [discriminate| | |];
        intros Heq; rewrite Heq in Hn; discriminate.
  - destruct Hshape as [Hu [e He]]. rewrite Hu, He.
    repeat split; eauto; try discriminate.
    intros [[? ?] ?]. discriminate.
Qed.

Lemma publishVideo_resolved h c video ps :
  mediaResolves h video ->
  exists file,
    publishVideo h c video ps = Some (map (publishOne c video file) ps).
Proof.
  intros (url & file & Hu & Hne & Hfile & Haccess).
  unfold publishVideo, mediaFile in *. rewrite Hu.
  unfold nonEmpty. rewrite (proj2 (String.eqb_neq _ _) Hne). cbn [negb].
  destruct (Host.urlPathname h url) as [path|]; [|discriminate].
  injection Hfile as <-. rewrite Haccess. eauto.
Qed.

(** X11.  When the media of the video resolves, [publishVideo] returns
    one result for each requested platform, in the order of the request:
    the i-th result is under the canonical name of the i-th platform and
    succeeds exactly when the service holds a non-empty token for it. *)
Theorem publishVideo_results (h : Host.t) (c : SocialMediaAuthConfig.t)
    (video : Video.t) (ps : list string) :
  mediaResolves h video ->
  exists results,
    publishVideo h c video ps = Some results
    /\ length results = length ps
    /\ map PublishResult.platform results = map canonicalName ps
    /\ map PublishResult.success results
       = map (fun p => truthy_str (tokenOf c (toLowerCase p))) ps.
Proof.
  intros Hm. destruct (publishVideo_resolved h c video ps Hm) as [file ->].
  eexists. split; [reflexivity|]. rewrite length_map, !map_map.
  split; [reflexivity|].
  split; apply map_ext; intros p; apply (publishOne_outcome c video file p).
Qed.

Lemma mediaResolves_example : mediaResolves Example.host Example.video.
Proof.
  exists "/generated/launch.mp4", "/srv/public/generated//generated/launch.mp4".
  repeat split; try reflexivity. discriminate.
Defined.

Lemma publishVideo_results_witness :
  exists results,
    publishVideo Example.host (World.config Example.authorized) Example.video
      ["TikTok"; "vimeo"; "youtube"] = Some results
    /\ map PublishResult.platform results = ["tiktok"; "vimeo"; "youtube"]
    /\ map PublishResult.success results = [false; false; true].
Proof.
  destruct (publishVideo_results Example.host (World.config Example.authorized)
              Example.video ["TikTok"; "vimeo"; "youtube"] mediaResolves_example)
    as (results & H1 & _ & H2 & H3).
  exists results. split; [exact H1|]. split; [exact H2 | exact H3].
Defined.

(** X12.  [publishVideo] throws exactly when the URL of the video is set
    and [new URL] rejects it.  When the URL is missing or empty, or the
    file is not there, it returns a single failing result under the name
    [all], whatever platforms were asked and whatever tokens are held. *)
Theorem publishVideo_media (h : Host.t) (c : SocialMediaAuthConfig.t)
    (video : Video.t) (ps : list string) :
  (publishVideo h c video ps = None
   <-> exists url, Video.videoUrl video = Some url /\ url <> ""
                   /\ Host.urlPathname h url = None)
  /\ (truthy_str (Video.videoUrl video) = false
      \/ (exists url file, Video.videoUrl video = Some url
                           /\ mediaFile h url = Some file
                           /\ Host.fsAccess h file = false) ->
      exists r, publishVideo h c video ps = Some [r]
                /\ PublishResult.platform r = "all"
                /\ PublishResult.success r = false
                /\ is_Some (PublishResult.error r)).
Proof.
  unfold publishVideo, mediaFile, truthy_str, nonEmpty. split.
  - destruct (Video.videoUrl video) as [url|].
    + destruct (String.eqb url "") eqn:E; cbn [negb].
      * apply String.eqb_eq in E. split; [discriminate|].
        intros (u & [= <-] & Hne & _). contradiction.
      * apply String.eqb_neq in E.
        destruct (Host.urlPathname h url) as [path|] eqn:Ep.
        -- split; [destruct (Host.fsAccess h _); discriminate|].
           intros (u & [= <-] & _ & Hu). congruence.
        -- split; eauto.
    + split; [discriminate|]. intros (u & Hu & _). discriminate.
  - intros [Hfalsy | (url & file & Hu & Hfile & Haccess)].
    + destruct (Video.videoUrl video) as [url|]; [|cbn; eauto 6].
      rewrite Hfalsy. cbn. eauto 6.
    + rewrite Hu in *. destruct (negb (String.eqb url "")); [|cbn; eauto 6].
      destruct (Host.urlPathname h url) as [path|]; [|discriminate].
      injection Hfile as <-. rewrite Haccess. cbn. eauto 6.
Qed.

Lemma publishVideo_media_witness :
  truthy_str (Video.videoUrl Example.draft) = false
  /\ exists r, publishVideo Example.host (World.config Example.authorized) Example.draft
                 ["youtube"] = Some [r]
               /\ PublishResult.platform r = "all".
Proof.
  split; [reflexivity|].
  destruct (proj2 (publishVideo_media Example.host (World.config Example.authorized)
                     Example.draft ["youtube"]) (or_introl eq_refl))
    as (r & H1 & H2 & _).
  exists r. split; [exact H1 | exact H2].
Defined.

End ServiceTokens.

(** ** The store: activities and videos *)

Section StoreProperties.
Import MemStorageState.

Lemma mapSet_fresh a m :
  Forall (fun b => Activity.id b <> Activity.id a) m -> MemStorage.mapSet a m = (m ++ [a])%list.
Proof.
  induction 1 as [|b m Hb Hm IH]; simpl; [reflexivity|].
  destruct (Z.eqb_spec (Activity.id b) (Activity.id a)); [contradiction|].
  now rewrite IH.
Qed.

Lemma freshIds_mapSet st a :
  freshIds st -> Activity.id a = activityIdCounter st ->
  MemStorage.mapSet a (activities st) = (activities st ++ [a])%list
  /\ freshIds (mk (videos st) (activities st ++ [a])%list (activityIdCounter st + 1)).
Proof.
  unfold freshIds. intros Hf Hid. split.
  - apply mapSet_fresh. eapply Forall_impl; [exact Hf|]. simpl. intros b Hb. lia.
  - simpl. apply Forall_app. split.
    + eapply Forall_impl; [exact Hf|]. simpl. intros b Hb. lia.
    + repeat constructor. lia.
Qed.

(** The store after [createActivity], in a store with fresh identifiers. *)
Lemma createActivity_fresh a w :
  freshIds (World.storage w) ->
  let run := MemStorage.createActivity a w in
  activities (World.storage (M.final run))
  = (activities (World.storage w) ++ [M.result run])%list
  /\ videos (World.storage (M.final run)) = videos (World.storage w)
  /\ freshIds (World.storage (M.final run)).
Proof.
  intros Hf run. subst run. rewrite createActivity_run. cbv zeta.
  cbn [M.final M.result World.storage videos activities activityIdCounter].
  edestruct (freshIds_mapSet (World.storage w)) as [Hset Hfresh];
    [exact Hf | |rewrite Hset; split; [reflexivity|split; [reflexivity|exact Hfresh]]].
  reflexivity.
Qed.

(** X13.  In a store where every activity has an identifier below the
    counter, [createActivity] gives the new activity the counter as
    identifier and the current time as creation time, puts it after the
    stored ones without replacing any, keeps the identifiers below the
    counter, touches no video, and the activity is then among those
    [getActivitiesByUserId] returns for its user. *)
Theorem createActivity_appends (a : InsertActivity.t) (w : World.t) :
  freshIds (World.storage w) ->
  let run := MemStorage.createActivity a w in
  let created := M.result run in
  Activity.id created = activityIdCounter (World.storage w)
  /\ Activity.createdAt created = World.clock w (World.ticks w)
  /\ Activity.userId created = InsertActivity.userId a
  /\ activities (World.storage (M.final run))
     = (activities (World.storage w) ++ [created])%list
  /\ videos (World.storage (M.final run)) = videos (World.storage w)
  /\ freshIds (World.storage (M.final run))
  /\ In created
       (M.result (MemStorage.getActivitiesByUserId (InsertActivity.userId a) None
                    (M.final run))).
Proof.
  intros Hf run created.
  destruct (createActivity_fresh a w Hf) as (Hacts & Hvideos & Hfresh).
  fold run in Hacts, Hvideos, Hfresh. fold created in Hacts.
  assert (Huser : Activity.userId created = InsertActivity.userId a) by reflexivity.
  repeat split; try assumption; try reflexivity.
  rewrite getActivitiesByUserId_run. cbn [M.result].
  eapply Permutation_in; [symmetry; apply sort_Permutation|].
  unfold activitiesOf. apply filter_In. split.
  - rewrite Hacts. apply in_or_app. right. now left.
  - rewrite Huser. apply Z.eqb_refl.
Qed.

Lemma freshIds_example : freshIds (World.storage Example.world).
Proof. unfold freshIds. cbn. repeat constructor; reflexivity. Defined.

Lemma createActivity_appends_witness :
  length (activities
            (World.storage
               (M.final (MemStorage.createActivity
                           (InsertActivity.mk None 1 "note" None) Example.world))))
  = 5%nat.
Proof.
  destruct (createActivity_appends (InsertActivity.mk None 1 "note" None) Example.world
              freshIds_example) as (_ & _ & _ & -> & _).
  reflexivity.
Defined.

(** X14.  [updateVideo] of an identifier that is not stored returns
    [undefined] and changes nothing (no activity is logged).  Otherwise it
    returns and stores the merged video, which keeps its identifier and
    creation time, leaves every other video as it was, and logs an
    [update_video] activity for the owner the video had, with the title
    the video had before the update. *)
Theorem updateVideo_effect (id : Z) (updateData : VideoPatch.t) (w : World.t) :
  let run := MemStorage.updateVideo id updateData w in
  match videos (World.storage w) !! id with
  | None => run = M.mkRun None w []
  | Some video =>
      let updated := VideoPatch.apply updateData video in
      M.result run = Some updated
      /\ Video.id updated = Video.id video
      /\ Video.createdAt updated = Video.createdAt video
      /\ videos (World.storage (M.final run)) !! id = Some updated
      /\ (forall id', id' <> id ->
            videos (World.storage (M.final run)) !! id' = videos (World.storage w) !! id')
      /\ exists logged,
           In logged (activities (World.storage (M.final run)))
           /\ Activity.action logged = "update_video"
           /\ Activity.userId logged = Video.userId video
           /\ Activity.videoId logged = MemStorage.numberOrNull (Some id)
           /\ Activity.details logged = Some (VObj [("title", VStr (Video.title video))])
  end.
Proof.
  intros run. subst run.
  destruct (videos (World.storage w) !! id) as [video|] eqn:H.
  - rewrite (updateVideo_run id updateData video w H). cbv zeta.
    rewrite createActivity_run. cbv zeta.
    cbn [M.final M.result World.storage World.withStorage videos activities].
    split; [reflexivity|]. split; [reflexivity|]. split; [reflexivity|].
    split; [apply lookup_insert_eq|].
    split; [intros id' Hne; now apply lookup_insert_ne|].
    eexists. split; [apply mapSet_In|]. repeat split.
  - now apply updateVideo_missing.
Qed.

Lemma deleteVideo_run id video w :
  videos (World.storage w) !! id = Some video ->
  MemStorageVideos.deleteVideo id w =
  let st := World.storage w in
  let w' :=
    World.withStorage (mk (delete id (videos st)) (activities st) (activityIdCounter st)) w in
  M.mkRun true
    (M.final (MemStorage.createActivity
                (InsertActivity.mk (Some id) (Video.userId video) "delete_video"
                   (Some (VObj [("title", VStr (Video.title video))]))) w'))
    [].
Proof.
  intros H. unfold MemStorageVideos.deleteVideo. run_handler. rewrite H. reflexivity.
Qed.

Lemma deleteVideo_missing id w :
  videos (World.storage w) !! id = None ->
  MemStorageVideos.deleteVideo id w = M.mkRun false w [].
Proof.
  intros H. unfold MemStorageVideos.deleteVideo. run_handler. rewrite H. reflexivity.
Qed.

Lemma deleteVideo_videos id video w :
  videos (World.storage w) !! id = Some video ->
  videos (World.storage (M.final (MemStorageVideos.deleteVideo id w)))
  = delete id (videos (World.storage w)).
Proof.
  intros H. rewrite (deleteVideo_run id video w H). cbv zeta.
  rewrite createActivity_run. reflexivity.
Qed.

(** X15.  [deleteVideo] returns [true] exactly when the identifier was
    stored.  It then removes that video and no other and logs a
    [delete_video] activity with the title the video had; a second
    [deleteVideo] of the identifier returns [false].  When the identifier
    was not stored nothing changes. *)
Theorem deleteVideo_effect (id : Z) (w : World.t) :
  let run := MemStorageVideos.deleteVideo id w in
  (M.result run = true <-> is_Some (videos (World.storage w) !! id))
  /\ videos (World.storage (M.final run)) !! id = None
  /\ (forall id', id' <> id ->
        videos (World.storage (M.final run)) !! id' = videos (World.storage w) !! id')
  /\ M.result (MemStorageVideos.deleteVideo id (M.final run)) = false
  /\ match videos (World.storage w) !! id with
     | None => run = M.mkRun false w []
     | Some video =>
         exists logged,
           In logged (activities (World.storage (M.final run)))
           /\ Activity.action logged = "delete_video"
           /\ Activity.userId logged = Video.userId video
           /\ Activity.details logged = Some (VObj [("title", VStr (Video.title video))])
     end.
Proof.
  intros run. subst run.
  destruct (videos (World.storage w) !! id) as [video|] eqn:H.
  - pose proof (deleteVideo_videos id video w H) as Hv.
    split; [split; [eauto | intros _; now rewrite (deleteVideo_run id video w H)]|].
    split; [rewrite Hv; apply lookup_delete_eq|].
    split; [intros id' Hne; rewrite Hv; now apply lookup_delete_ne|].
    split.
    + rewrite deleteVideo_missing; [reflexivity|]. rewrite Hv. apply lookup_delete_eq.
    + rewrite (deleteVideo_run id video w H). cbv zeta. rewrite createActivity_run.
      cbv zeta. cbn [M.final World.storage activities].
      eexists. split; [apply mapSet_In|]. repeat split.
  - rewrite (deleteVideo_missing id w H). cbn [M.result M.final].
    split; [split; [discriminate | intros [? ?]; discriminate]|].
    split; [exact H|]. split; [reflexivity|].
    split; [now rewrite (deleteVideo_missing id w H) | reflexivity].
Qed.

(** X16.  [createVideo] stores the new video under the counter and
    returns the next counter; the video is then what [getVideo] finds, no
    other video changes, and a [create_video] activity is logged.  The
    stored video never has an empty status (it is [draft] when none is
    given), never an empty thumbnail or media URL (they are [null]
    instead), and always has a list of platforms. *)
Theorem createVideo_stored (insertVideo : InsertVideo.t) (videoIdCounter : Z)
    (w : World.t) :
  let run := MemStorageVideos.createVideo insertVideo videoIdCounter w in
  let video := fst (M.result run) in
  snd (M.result run) = videoIdCounter + 1
  /\ Video.id video = videoIdCounter
  /\ M.result (MemStorage.getVideo videoIdCounter (M.final run)) = Some video
  /\ (forall id', id' <> videoIdCounter ->
        videos (World.storage (M.final run)) !! id' = videos (World.storage w) !! id')
  /\ Video.status video <> ""
  /\ (InsertVideo.status insertVideo = None -> Video.status video = "draft")
  /\ Video.thumbnailUrl video <> Some ""
  /\ Video.videoUrl video <> Some ""
  /\ is_Some (Video.platforms video)
  /\ exists logged,
       In logged (activities (World.storage (M.final run)))
       /\ Activity.action logged = "create_video"
       /\ Activity.userId logged = InsertVideo.userId insertVideo.
Proof.
  intros run video. subst video run.
  unfold MemStorageVideos.createVideo. run_handler.
  rewrite createActivity_run. cbv zeta.
  cbn [M.final M.result World.storage World.withStorage World.withTicks fst snd
       videos activities Video.id Video.status Video.thumbnailUrl Video.videoUrl
       Video.platforms].
  split; [reflexivity|]. split; [reflexivity|].
  split; [unfold MemStorage.getVideo; run_handler; cbn; apply lookup_insert_eq|].
  split; [intros id' Hne; cbn; now apply lookup_insert_ne|].
  split.
  { unfold MemStorageVideos.stringOr.
    destruct (InsertVideo.status insertVideo) as [s|]; [|discriminate].
    destruct (String.eqb_spec s ""); [discriminate | assumption]. }
  split; [intros ->; reflexivity|].
  split.
  { unfold MemStorageVideos.stringOrNull.
    destruct (InsertVideo.thumbnailUrl insertVideo) as [s|]; [|discriminate].
    destruct (String.eqb_spec s ""); [discriminate | congruence]. }
  split.
  { unfold MemStorageVideos.stringOrNull.
    destruct (InsertVideo.videoUrl insertVideo) as [s|]; [|discriminate].
    destruct (String.eqb_spec s ""); [discriminate | congruence]. }
  split; [eauto|].
  eexists. split; [cbn; apply mapSet_In|]. split; reflexivity.
Qed.

End StoreProperties.

(** ** The handlers, one after the other *)

Section HandlerFrames.
Import Routes MemStorageState.

Lemma createActivity_frame a w :
  let w' := M.final (MemStorage.createActivity a w) in
  World.env w' = World.env w /\ World.config w' = World.config w
  /\ World.host w' = World.host w
  /\ videos (World.storage w') = videos (World.storage w).
Proof. rewrite createActivity_run. repeat split. Qed.

Lemma updateVideo_frame id updateData w :
  let w' := M.final (MemStorage.updateVideo id updateData w) in
  World.env w' = World.env w /\ World.config w' = World.config w
  /\ World.host w' = World.host w
  /\ (forall id', id' <> id ->
        videos (World.storage w') !! id' = videos (World.storage w) !! id').
Proof.
  destruct (videos (World.storage w) !! id) as [video|] eqn:H.
  - rewrite (updateVideo_run id updateData video w H). cbv zeta.
    rewrite createActivity_run. cbv zeta.
    cbn [M.final World.env World.config World.host World.storage World.withStorage videos].
    repeat split. intros id' Hne. now apply lookup_insert_ne.
  - rewrite (updateVideo_missing id updateData w H). repeat split.
Qed.

Lemma createActivity_freshIds a w :
  freshIds (World.storage w) ->
  freshIds (World.storage (M.final (MemStorage.createActivity a w))).
Proof. intros H. apply (createActivity_fresh a w H). Qed.

Lemma updateVideo_freshIds id updateData w :
  freshIds (World.storage w) ->
  freshIds (World.storage (M.final (MemStorage.updateVideo id updateData w))).
Proof.
  intros Hf. destruct (videos (World.storage w) !! id) as [video|] eqn:H.
  - rewrite (updateVideo_run id updateData video w H). cbv zeta.
    apply createActivity_freshIds. exact Hf.
  - now rewrite (updateVideo_missing id updateData w H).
Qed.

(** X17.  Whatever the request, the publish handler leaves the
    environment, the file system view and the configuration of the service
    (its tokens) as they were, changes no video other than the one whose
    id the parameter parses to, keeps the activity identifiers below the
    counter, and answers 200, 400, 404 or 500. *)
Theorem publish_frame (w : World.t) (idParam : string) (reqBody : value) :
  let run := publish idParam reqBody w in
  World.env (M.final run) = World.env w
  /\ World.config (M.final run) = World.config w
  /\ World.host (M.final run) = World.host w
  /\ (forall id', parseInt (sanitizeString idParam) <> Some id' ->
        videos (World.storage (M.final run)) !! id' = videos (World.storage w) !! id')
  /\ (freshIds (World.storage w) -> freshIds (World.storage (M.final run)))
  /\ In (status (M.result run)) [200; 400; 404; 500].
Proof.
  intros run. subst run.
  destruct (parseInt (sanitizeString idParam)) as [id|] eqn:H1.
  2:{ rewrite (publish_invalid_id _ _ _ H1). cbn. tauto. }
  destruct (validateRequest publishSchema reqBody) as [data|error] eqn:H2.
  2:{ rewrite (publish_invalid_body _ _ _ _ _ H1 H2). cbn. tauto. }
  destruct (videos (World.storage w) !! id) as [video|] eqn:H3.
  2:{ rewrite (publish_not_found _ _ _ _ _ H1 H2 H3). cbn. tauto. }
  destruct (truthy_str (Video.videoUrl video)) eqn:H4.
  2:{ rewrite (publish_no_media _ _ _ _ _ _ H1 H2 H3 H4). cbn. tauto. }
  rewrite (publish_fan_out _ _ _ _ _ _ H1 H2 H3 H4). cbv zeta.
  set (w1 := M.final (MemStorage.createActivity (publishStarted video data) w)).
  destruct (createActivity_frame (publishStarted video data) w) as (E1 & C1 & Ho1 & V1).
  fold w1 in E1, C1, Ho1, V1.
  assert (F1 : freshIds (World.storage w) -> freshIds (World.storage w1))
    by apply createActivity_freshIds.
  destruct (SocialMediaService.publishVideo _ _ _ _) as [results|].
  2:{ cbn [M.final M.result status]. rewrite V1. cbn. tauto. }
  destruct (existsb PublishResult.success results).
  2:{ cbn [M.final M.result status]. rewrite V1. cbn. tauto. }
  cbn [M.final M.result status].
  set (w2 := M.final (MemStorage.updateVideo id (VideoPatch.ofStatus "published") w1)).
  destruct (updateVideo_frame id (VideoPatch.ofStatus "published") w1) as (E2 & C2 & Ho2 & V2).
  fold w2 in E2, C2, Ho2, V2.
  destruct (createActivity_frame (videoPublished video results) w2) as (E3 & C3 & Ho3 & V3).
  rewrite E3, C3, Ho3, V3, E2, C2, Ho2, E1, C1, Ho1.
  repeat split.
  - intros id' Hne. rewrite V2 by congruence. now rewrite V1.
  - intros Hf. apply createActivity_freshIds, updateVideo_freshIds, F1, Hf.
  - cbn. tauto.
Qed.

(** X18.  When [publishVideo] throws, the handler answers 500; the
    [video_publish_started] activity it logged before stays in the store,
    no video is changed and no update is made. *)
Theorem publish_service_throws (w : World.t) (idParam : string) (reqBody : value)
    (video : Video.t) (ps : list string) :
  In (CallPublishVideo video ps None) (M.calls (publish idParam reqBody w)) ->
  let run := publish idParam reqBody w in
  status (M.result run) = 500
  /\ videos (World.storage (M.final run)) = videos (World.storage w)
  /\ (forall id updateData, ~ In (CallUpdateVideo id updateData) (M.calls run))
  /\ exists started,
       In started (activities (World.storage (M.final run)))
       /\ Activity.action started = "video_publish_started"
       /\ Activity.userId started = Video.userId video.
Proof.
  intros Hin run. subst run.
  destruct (publish_called _ _ _ _ _ _ Hin) as (id & data & H1 & H2 & H3 & H4 & -> & Hout).
  rewrite (publish_fan_out _ _ _ _ _ _ H1 H2 H3 H4). cbv zeta. rewrite <- Hout.
  rewrite createActivity_run. cbv zeta. cbn [M.final M.result M.calls status World.storage
    videos activities].
  split; [reflexivity|]. split; [reflexivity|]. split.
  - intros i u [H|[H|[H|[]]]]; discriminate.
  - eexists. split; [apply mapSet_In|]. split; reflexivity.
Qed.

Lemma publish_service_throws_witness :
  In (CallPublishVideo Example2.broken ["youtube"] None)
     (M.calls (publish "3" (Example.bodyOf ["youtube"]) Example2.worldBroken))
  /\ status (M.result (publish "3" (Example.bodyOf ["youtube"]) Example2.worldBroken)) = 500.
Proof.
  assert (H : In (CallPublishVideo Example2.broken ["youtube"] None)
                 (M.calls (publish "3" (Example.bodyOf ["youtube"]) Example2.worldBroken))).
  { vm_compute. right. right. left. reflexivity. }
  split; [exact H|].
  exact (proj1 (publish_service_throws _ _ _ _ _ H)).
Defined.

End HandlerFrames.

Section ConnectAndPublish.
Import Routes MemStorageState.

Lemma youtubeCallback_connected w query :
  truthy (prop "code" query) = true ->
  truthy (prop "error" query) = false ->
  truthy_str (World.env w !! "YOUTUBE_CLIENT_ID")
  && truthy_str (World.env w !! "YOUTUBE_CLIENT_SECRET") = true ->
  youtubeCallback query w =
  M.mkRun (mkResponse 200 (Html youtubeConnected))
    (World.withConfig
       (snd (SocialMediaService.setAccessToken (World.config w) "youtube"
               "simulated_access_token")) w)
    [CallSetAccessToken "youtube" "simulated_access_token"].
Proof.
  intros Hcode Herror Hcreds. apply andb_true_iff in Hcreds as [Hid Hsecret].
  unfold youtubeCallback, socialMediaService_setAccessToken.
  rewrite Herror, Hcode. cbn [negb]. run_handler. rewrite Hid, Hsecret.
  cbv beta iota delta [negb orb].
  destruct (SocialMediaService.setAccessToken _ _ _) as [ok c']. reflexivity.
Qed.

Lemma youtubeCallback_frame w query :
  let w' := M.final (youtubeCallback query w) in
  World.env w' = World.env w /\ World.storage w' = World.storage w
  /\ World.host w' = World.host w.
Proof.
  unfold youtubeCallback, socialMediaService_setAccessToken.
  destruct (truthy (prop "error" query)); [repeat split|].
  destruct (truthy (prop "code" query)); cbn [negb]; [|repeat split].
  run_handler.
  destruct (negb (truthy_str (World.env w !! "YOUTUBE_CLIENT_ID"))
            || negb (truthy_str (World.env w !! "YOUTUBE_CLIENT_SECRET")));
    [repeat split|].
  destruct (SocialMediaService.setAccessToken _ _ _) as [ok c']. repeat split.
Qed.

Lemma authUrl_final platformParam hostHeader w :
  M.final (authUrl platformParam hostHeader w)
  = World.withConfig (SocialMediaService.loadConfig (World.env w) (World.config w)) w.
Proof.
  unfold authUrl, socialMediaService_reloadConfig, socialMediaService_getAuthorizationUrl.
  run_handler.
  match goal with |- context [if ?b then _ else _] => destruct b end; reflexivity.
Qed.

(** X19.  A request for an authorization URL reloads the configuration,
    and reloading replaces the YouTube entry: after an OAuth callback,
    whatever it stored, the token the service holds for YouTube is the
    value of [YOUTUBE_ACCESS_TOKEN] again (none when it is not set) as soon
    as any authorization URL is asked for. *)
Theorem authUrl_resets_youtube_token (w : World.t) (query : value)
    (platformParam : string) (hostHeader : option string) :
  truthy_str (World.env w !! "YOUTUBE_CLIENT_ID")
  && truthy_str (World.env w !! "YOUTUBE_CLIENT_SECRET") = true ->
  let w1 := M.final (youtubeCallback query w) in
  let w2 := M.final (authUrl platformParam hostHeader w1) in
  youtubeToken (World.config w2) = World.env w !! "YOUTUBE_ACCESS_TOKEN".
Proof.
  intros Hcreds w1 w2. subst w2. rewrite authUrl_final.
  destruct (youtubeCallback_frame w query) as (Henv & _ & _). fold w1 in Henv.
  cbn [World.config World.withConfig]. rewrite Henv.
  now apply loadConfig_youtubeToken.
Qed.

Lemma authUrl_resets_youtube_token_witness :
  youtubeToken (World.config (M.final (youtubeCallback Example.queryCode Example.world)))
  = Some "simulated_access_token"
  /\ youtubeToken
       (World.config
          (M.final (authUrl "tiktok" None
                      (M.final (youtubeCallback Example.queryCode Example.world)))))
     = None.
Proof.
  split; [reflexivity|].
  exact (authUrl_resets_youtube_token Example.world Example.queryCode "tiktok" None eq_refl).
Defined.

(** X20.  Connecting, then publishing: in a running process with both
    YouTube credentials set, after a callback that carries a code and no
    error, a valid publish request that names YouTube (in any case) for a
    stored video whose media resolves is answered 200, and the video is
    stored with the status [published]. *)
Theorem connect_then_publish (w : World.t) (query : value) (idParam : string)
    (reqBody : value) (id : Z) (data : PublishData) (video : Video.t) (p : string) :
  reachable (World.env w) (World.config w) ->
  truthy (prop "code" query) = true ->
  truthy (prop "error" query) = false ->
  truthy_str (World.env w !! "YOUTUBE_CLIENT_ID")
  && truthy_str (World.env w !! "YOUTUBE_CLIENT_SECRET") = true ->
  parseInt (sanitizeString idParam) = Some id ->
  validateRequest publishSchema reqBody = Valid data ->
  videos (World.storage w) !! id = Some video ->
  mediaResolves (World.host w) video ->
  In p (platforms data) ->
  toLowerCase p = "youtube" ->
  let w1 := M.final (youtubeCallback query w) in
  let run := publish idParam reqBody w1 in
  status (M.result run) = 200
  /\ videos (World.storage (M.final run)) !! id = Some (withStatus "published" video).
Proof.
  intros Hreach Hcode Herror Hcreds H1 H2 H3 Hmedia Hp Hlower w1 run.
  subst run w1. rewrite (youtubeCallback_connected w query Hcode Herror Hcreds).
  cbn [M.final].
  set (c' := snd (SocialMediaService.setAccessToken (World.config w) "youtube"
                    "simulated_access_token")).
  assert (Htoken : tokenOf c' "youtube" = Some "simulated_access_token").
  { destruct (reachable_youtube _ _ Hreach Hcreds) as [y Hy].
    subst c'. rewrite setAccessToken_youtube, Hy. reflexivity. }
  assert (H4 : truthy_str (Video.videoUrl video) = true).
  { destruct Hmedia as (url & file & -> & Hne & _). cbn.
    now rewrite (proj2 (String.eqb_neq _ _) Hne). }
  rewrite (publish_fan_out idParam reqBody (World.withConfig c' w) id data video H1 H2 H3 H4).
  cbv zeta. cbn [World.host World.config World.withConfig].
  destruct (publishVideo_resolved (World.host w) c' video (platforms data) Hmedia)
    as [file ->].
  assert (Hsome : existsb PublishResult.success
                    (map (SocialMediaService.publishOne c' video file) (platforms data))
                  = true).
  { apply existsb_exists. eexists. split; [apply in_map, Hp|].
    rewrite (proj1 (publishOne_outcome c' video file p)), Hlower, Htoken. reflexivity. }
  rewrite Hsome. cbn [M.result M.final status]. split; [reflexivity|].
  rewrite createActivity_run. cbv zeta.
  rewrite (updateVideo_run id (VideoPatch.ofStatus "published") video) by exact H3.
  cbv zeta. rewrite createActivity_run. cbv zeta.
  cbn [M.final World.storage World.withStorage videos]. apply lookup_insert_eq.
Qed.

Lemma connect_then_publish_witness :
  videos
    (World.storage
       (M.final (publish "1" (Example.bodyOf ["YouTube"])
                   (M.final (youtubeCallback Example.queryCode Example.world)))))
  !! 1 = Some (withStatus "published" Example.video).
Proof.
  refine (proj2 (connect_then_publish Example.world Example.queryCode "1"
                   (Example.bodyOf ["YouTube"]) 1 (mkPublishData ["YouTube"])
                   Example.video "YouTube" (reach_construct _) eq_refl eq_refl eq_refl
                   eq_refl eq_refl eq_refl mediaResolves_example _ eq_refl)).
  simpl. tauto.
Defined.

End ConnectAndPublish.
